(** * coolpack: the [prepare] command (cmd/coolpack/prepare.go)

    A shallow embedding of the override resolution performed by
    [runPrepare] and its helpers, and of the control flow of [runPrepare]
    itself, together with the properties stated about them.

    Go strings are byte strings: they are modelled by [string] (a list of
    8-bit [ascii]).  Go maps are modelled by stdpp's [gmap]; a nil map is
    kept apart from an empty one where the code tests for it
    ([Plan.Metadata]). *)

From Stdlib Require Import Ascii String List NArith.
From stdpp Require Import base option list gmap strings fin_maps.

Local Open Scope string_scope.
Local Open Scope list_scope.
Set Warnings "-register-all,-clear-no-such-hyp".

(** ** The Go library functions used by prepare.go *)

Module GoStrings.

Definition byte_is (n : N) (c : ascii) : bool := N.eqb (N_of_ascii c) n.

Definition byte_in (lo hi : N) (c : ascii) : bool :=
  N.leb lo (N_of_ascii c) && N.leb (N_of_ascii c) hi.

(** The [asciiSpace] table of package strings: tab, newline, vertical tab,
    form feed, carriage return and space. *)
Definition asciiSpace (c : ascii) : bool :=
  byte_in 9 13 c || byte_is 32 c.

(** [unicode.IsSpace] on the UTF-8 encoding: the number of bytes taken by
    the white-space rune that starts the byte list, 0 when there is none.
    Besides the ASCII six these are U+0085, U+00A0 (two bytes), U+1680,
    U+2000..U+200A, U+2028, U+2029, U+202F, U+205F and U+3000 (three
    bytes). *)
Definition spaceWidth (bs : list ascii) : nat :=
  match bs with
  | [] => 0
  | b1 :: bs1 =>
    if asciiSpace b1 then 1 else
    match bs1 with
    | [] => 0
    | b2 :: bs2 =>
      if byte_is 194 b1 && (byte_is 133 b2 || byte_is 160 b2) then 2 else
      match bs2 with
      | [] => 0
      | b3 :: _ =>
        if byte_is 225 b1 && byte_is 154 b2 && byte_is 128 b3 then 3
        else if byte_is 226 b1 && byte_is 128 b2
                && (byte_in 128 138 b3 || byte_is 168 b3
                    || byte_is 169 b3 || byte_is 175 b3) then 3
        else if byte_is 226 b1 && byte_is 129 b2 && byte_is 159 b3 then 3
        else if byte_is 227 b1 && byte_is 128 b2 && byte_is 128 b3 then 3
        else 0
      end
    end
  end.

(** The same test on the end of the string, which is given reversed (last
    byte first), as [utf8.DecodeLastRuneInString] reads it. *)
Definition spaceWidthRev (rs : list ascii) : nat :=
  match rs with
  | [] => 0
  | b1 :: rs1 =>
    if asciiSpace b1 then 1 else
    match rs1 with
    | [] => 0
    | b2 :: rs2 =>
      if Nat.eqb (spaceWidth [b2; b1]) 2 then 2 else
      match rs2 with
      | [] => 0
      | b3 :: _ => if Nat.eqb (spaceWidth [b3; b2; b1]) 3 then 3 else 0
      end
    end
  end.

(** Drop white-space runes as long as [width] finds one; every round
    removes at least one byte, so the length of the input is enough
    fuel. *)
Fixpoint trimWhile (width : list ascii → nat) (fuel : nat)
    (bs : list ascii) : list ascii :=
  match fuel with
  | 0 => bs
  | S fuel' =>
    match width bs with
    | 0 => bs
    | w => trimWhile width fuel' (drop w bs)
    end
  end.

Definition trimLeft (bs : list ascii) : list ascii :=
  trimWhile spaceWidth (length bs) bs.

Definition trimRight (bs : list ascii) : list ascii :=
  rev (trimWhile spaceWidthRev (length bs) (rev bs)).

(** [strings.TrimSpace]. *)
Definition TrimSpace (s : string) : string :=
  string_of_list_ascii (trimRight (trimLeft (list_ascii_of_string s))).

(** [strings.Split(s, ",")]: one more piece than there are commas; the
    empty string gives one empty piece. *)
Fixpoint SplitComma (s : string) : list string :=
  match s with
  | EmptyString => [""]
  | String c rest =>
    if byte_is 44 c then "" :: SplitComma rest
    else match SplitComma rest with
         | piece :: pieces => String c piece :: pieces
         | [] => [String c ""]
         end
  end.

(** [idx := strings.Index(env, "=")] with [env[:idx]] and [env[idx+1:]]:
    the text before and after the first equals sign, [None] for
    [idx == -1]. *)
Fixpoint cutEquals (s : string) : option (string * string) :=
  match s with
  | EmptyString => None
  | String c rest =>
    if byte_is 61 c then Some ("", rest)
    else match cutEquals rest with
         | Some (k, v) => Some (String c k, v)
         | None => None
         end
  end.

End GoStrings.

(** The process environment: [os.LookupEnv] and [os.Getenv]. *)
Module GoOs.

Definition LookupEnv (environ : gmap string string) (key : string)
    : option string :=
  environ !! key.

Definition Getenv (environ : gmap string string) (key : string) : string :=
  default "" (environ !! key).

End GoOs.

(** ** The data model *)

(** A value held in [map[string]interface{}]: what encoding/json puts
    there (nil, bool, float64, string, []interface{},
    map[string]interface{}) and the [[]string] that
    [prepareApplyCustomPackages] stores.  The code never looks inside a
    number, so its payload is left as an integer tag. *)
Inductive Value : Type :=
  | VNil
  | VBool (b : bool)
  | VNumber (n : Z)
  | VString (s : string)
  | VArray (elems : list Value)
  | VObject (fields : list (string * Value))
  | VStrings (elems : list string).

(** Modelled from the spec: the struct [app.Plan] (named [detector.Plan]
    in the helpers' signatures), declared in pkg/app, which is not among
    the sources at hand; its fields are those of sections 3 and 6.
    prepare.go reads and writes [InstallCommand], [BuildCommand],
    [StartCommand], [BuildEnv] and [Metadata], a [map[string]interface{}]
    that is [None] when nil. *)
Record Plan : Type := mkPlan {
  Language : string;
  PackageManager : string;
  InstallCommand : string;
  BuildCommand : string;
  StartCommand : string;
  BuildEnv : gmap string string;
  Metadata : option (gmap string Value)
}.

(** The package-level flag variables of prepare.go. *)
Record Flags : Type := mkFlags {
  preparePath : string;
  prepareBuildEnvs : list string;
  prepareInstallCmd : string;
  prepareBuildCmd : string;
  prepareStartCmd : string;
  prepareStaticServer : string;
  prepareOutputDir : string;
  prepareSPA : bool;
  prepareNoSPA : bool;
  preparePackages : list string;
  preparePlanFile : string
}.

(** Field updates, as the assignments [plan.F = v] of the source. *)
Definition setInstallCommand (v : string) (p : Plan) : Plan :=
  mkPlan (Language p) (PackageManager p) v (BuildCommand p)
         (StartCommand p) (BuildEnv p) (Metadata p).
Definition setBuildCommand (v : string) (p : Plan) : Plan :=
  mkPlan (Language p) (PackageManager p) (InstallCommand p) v
         (StartCommand p) (BuildEnv p) (Metadata p).
Definition setStartCommand (v : string) (p : Plan) : Plan :=
  mkPlan (Language p) (PackageManager p) (InstallCommand p)
         (BuildCommand p) v (BuildEnv p) (Metadata p).
Definition setBuildEnv (v : gmap string string) (p : Plan) : Plan :=
  mkPlan (Language p) (PackageManager p) (InstallCommand p)
         (BuildCommand p) (StartCommand p) v (Metadata p).
Definition setMetadata (v : gmap string Value) (p : Plan) : Plan :=
  mkPlan (Language p) (PackageManager p) (InstallCommand p)
         (BuildCommand p) (StartCommand p) (BuildEnv p) (Some v).

(** [if plan.Metadata == nil { plan.Metadata = make(...) }], returning the
    map that the rest of the helper works on. *)
Definition metadataOrEmpty (p : Plan) : gmap string Value :=
  match Metadata p with
  | Some m => m
  | None => ∅
  end.

(** Reading a key of [plan.Metadata]; a nil map has no keys. *)
Definition metadataLookup (p : Plan) (key : string) : option Value :=
  metadataOrEmpty p !! key.

(** ** The overlay helpers *)

Section Overlays.

Variable environ : gmap string string.

(** [if cli != "" { field = cli } else if env := os.Getenv(name);
    env != "" { field = env }]: the value to assign, if any. *)
Definition overrideValue (cli : string) (name : string) : option string :=
  if decide (cli ≠ "") then Some cli
  else let env := GoOs.Getenv environ name in
       if decide (env ≠ "") then Some env else None.

Definition prepareApplyCommandOverrides
    (plan : Plan) (installCmd buildCmd startCmd : string) : Plan :=
  let plan :=
    match overrideValue installCmd "COOLPACK_INSTALL_CMD" with
    | Some v => setInstallCommand v plan
    | None => plan
    end in
  let plan :=
    match overrideValue buildCmd "COOLPACK_BUILD_CMD" with
    | Some v => setBuildCommand v plan
    | None => plan
    end in
  match overrideValue startCmd "COOLPACK_START_CMD" with
  | Some v => setStartCommand v plan
  | None => plan
  end.

Definition prepareApplyStaticServerSetting
    (plan : Plan) (staticServer : string) : Plan :=
  let m := metadataOrEmpty plan in
  match overrideValue staticServer "COOLPACK_STATIC_SERVER" with
  | Some v => setMetadata (<["static_server" := VString v]> m) plan
  | None => setMetadata m plan
  end.

(** [env == "true" || env == "1"] *)
Definition envTruthy (name : string) : bool :=
  let env := GoOs.Getenv environ name in
  bool_decide (env = "true") || bool_decide (env = "1").

Definition prepareApplySPASetting
    (plan : Plan) (spa noSPA : bool) : Plan :=
  let m := metadataOrEmpty plan in
  if noSPA then setMetadata (delete "is_spa" m) plan
  else if envTruthy "COOLPACK_NO_SPA"
  then setMetadata (delete "is_spa" m) plan
  else if spa then setMetadata (<["is_spa" := VBool true]> m) plan
  else if envTruthy "COOLPACK_SPA"
  then setMetadata (<["is_spa" := VBool true]> m) plan
  else setMetadata m plan.

Definition prepareApplyOutputDirSetting
    (plan : Plan) (outputDir : string) : Plan :=
  let m := metadataOrEmpty plan in
  match overrideValue outputDir "COOLPACK_SPA_OUTPUT_DIR" with
  | Some v => setMetadata (<["output_dir_override" := VString v]> m) plan
  | None => setMetadata m plan
  end.

End Overlays.

(** *** Custom packages *)

(** The packages already in [plan.Metadata["custom_packages"]]: the string
    elements of a [[]interface{}], or a [[]string] as it is; any other
    value, or none, gives no packages. *)
Definition existingCustomPackages (v : option Value) : list string :=
  match v with
  | Some (VArray existing) =>
      fold_left (λ customPackages pkg,
                   match pkg with
                   | VString s => customPackages ++ [s]
                   | _ => customPackages
                   end) existing []
  | Some (VStrings existing) => [] ++ existing
  | _ => []
  end.

(** The loop over [strings.Split(env, ",")]. *)
Definition appendEnvPackages (customPackages : list string)
    (pieces : list string) : list string :=
  fold_left (λ customPackages pkg,
               let pkg := GoStrings.TrimSpace pkg in
               if decide (pkg ≠ "") then customPackages ++ [pkg]
               else customPackages) pieces customPackages.

(** [!seen[pkg]] on a [map[string]bool]: a missing key reads as false. *)
Definition isSeen (seen : gmap string bool) (pkg : string) : bool :=
  default false (seen !! pkg).

(** The deduplication loop, on the pair of [seen] and [unique]. *)
Definition dedupStep (st : gmap string bool * list string) (pkg : string)
    : gmap string bool * list string :=
  let '(seen, unique) := st in
  if negb (isSeen seen pkg) then (<[pkg := true]> seen, unique ++ [pkg])
  else (seen, unique).

Definition deduplicate (customPackages : list string) : list string :=
  snd (fold_left dedupStep customPackages (∅, [])).

Section CustomPackages.

Variable environ : gmap string string.

(** The list built before the length test. *)
Definition collectCustomPackages (plan : Plan) (packages : list string)
    : list string :=
  let m := metadataOrEmpty plan in
  let customPackages := existingCustomPackages (m !! "custom_packages") in
  let customPackages :=
    if bool_decide (0 < length packages) then customPackages ++ packages
    else customPackages in
  let env := GoOs.Getenv environ "COOLPACK_PACKAGES" in
  if decide (env ≠ "")
  then appendEnvPackages customPackages (GoStrings.SplitComma env)
  else customPackages.

Definition prepareApplyCustomPackages
    (plan : Plan) (packages : list string) : Plan :=
  let m := metadataOrEmpty plan in
  let customPackages := collectCustomPackages plan packages in
  if bool_decide (length customPackages = 0) then setMetadata m plan
  else setMetadata
         (<["custom_packages" := VStrings (deduplicate customPackages)]> m)
         plan.

(** *** Build environment *)

Definition parseEnvVarsStep (result : gmap string string) (env : string)
    : gmap string string :=
  match GoStrings.cutEquals env with
  | Some (key, value) => <[key := value]> result
  | None =>
    match GoOs.LookupEnv environ env with
    | Some value => <[env := value]> result
    | None => result
    end
  end.

Definition prepareParseEnvVars (envArgs : list string)
    : gmap string string :=
  fold_left parseEnvVarsStep envArgs ∅.

(** *** The overlay part of [runPrepare]

    From "Apply command overrides" to the assignment of
    [plan.BuildEnv]: the resolved Plan handed to the generator. *)
Definition applyBuildEnv (plan : Plan) (buildEnvs : list string) : Plan :=
  let envMap := prepareParseEnvVars buildEnvs in
  if bool_decide (0 < size envMap) then setBuildEnv envMap plan else plan.

Definition resolvePlan (flags : Flags) (plan : Plan) : Plan :=
  let plan := prepareApplyCommandOverrides environ plan
                (prepareInstallCmd flags) (prepareBuildCmd flags)
                (prepareStartCmd flags) in
  let plan := prepareApplyStaticServerSetting environ plan
                (prepareStaticServer flags) in
  let plan := prepareApplySPASetting environ plan
                (prepareSPA flags) (prepareNoSPA flags) in
  let plan := prepareApplyOutputDirSetting environ plan
                (prepareOutputDir flags) in
  let plan := prepareApplyCustomPackages plan (preparePackages flags) in
  applyBuildEnv plan (prepareBuildEnvs flags).

End CustomPackages.

(** ** [runPrepare] *)

(** The errors [runPrepare] returns, one constructor per [fmt.Errorf] of the
    source; [errorMessage] renders the text. *)
Inductive LoadError : Type :=
  | ErrReadFile (err : string)
  | ErrParseJSON (err : string).

Inductive PrepareError : Type :=
  | ErrResolvePath (err : string)
  | ErrPathDoesNotExist (absPath : string)
  | ErrLoadPlanFile (err : LoadError)
  | ErrDetectionFailed (err : string)
  | ErrNoSupportedApplication
  | ErrCreateDirectory (err : string)
  | ErrGenerateDockerfile (err : string)
  | ErrWriteDockerfile (err : string).

Definition loadErrorMessage (e : LoadError) : string :=
  match e with
  | ErrReadFile err => String.append "failed to read file: " err
  | ErrParseJSON err => String.append "failed to parse JSON: " err
  end.

Definition errorMessage (e : PrepareError) : string :=
  match e with
  | ErrResolvePath err => String.append "failed to resolve path: " err
  | ErrPathDoesNotExist absPath =>
      String.append "path does not exist: " absPath
  | ErrLoadPlanFile err =>
      String.append "failed to load plan file: " (loadErrorMessage err)
  | ErrDetectionFailed err => String.append "detection failed: " err
  | ErrNoSupportedApplication => "no supported application detected"
  | ErrCreateDirectory err =>
      String.append "failed to create .coolpack directory: " err
  | ErrGenerateDockerfile err =>
      String.append "failed to generate Dockerfile: " err
  | ErrWriteDockerfile err =>
      String.append "failed to write Dockerfile: " err
  end.

(** [os.Stat] as the source looks at it: [err == nil], [os.IsNotExist(err)],
    or some other error. *)
Inductive StatResult : Type := StatOk | StatNotExist | StatOtherError.

(** The calls [runPrepare] makes, in the order it makes them. *)
Inductive OverlayStage : Type :=
  | CommandOverrides
  | StaticServerSetting
  | SPASetting
  | OutputDirSetting
  | CustomPackages
  | BuildEnvironment.

Inductive Event : Type :=
  | EvPrintf (text : string)
  | EvLoadPlanFromFile (path : string)
  | EvDetect (absPath : string)
  | EvOverlay (stage : OverlayStage)
  | EvMkdirAll (dir : string)
  | EvGenerateDockerfile (plan : Plan)
  | EvWriteFile (path : string) (data : string).

(** What one invocation runs against: the arguments, flags and
    environment, and the answers of the file system, of encoding/json, of
    pkg/detector and of pkg/generator.  A Go result [(v, err)] is a pair
    whose second component is [None] for a nil error; [w_Detect] may return
    a nil plan. *)
Record World : Type := mkWorld {
  w_args : list string;
  w_flags : Flags;
  w_environ : gmap string string;
  w_Abs : string → string + string;
  w_Stat : string → StatResult;
  w_ReadFile : string → string + string;
  w_Unmarshal : string → Plan + string;
  w_Detect : string → option Plan * option string;
  w_MkdirAll : string → option string;
  w_GenerateDockerfile : Plan → string * option string;
  w_WriteFile : string → string → option string
}.

(** [filepath.Join(dir, name)] for a cleaned [dir], which is what
    [filepath.Abs] returns, and a one-component [name], with the Unix
    separator: only the root ends in a separator. *)
Definition endsWithSlash (dir : string) : bool :=
  match rev (list_ascii_of_string dir) with
  | c :: _ => GoStrings.byte_is 47 c
  | [] => false
  end.

Definition Join (dir name : string) : string :=
  if decide (dir = "") then name
  else if endsWithSlash dir then String.append dir name
  else String.append dir (String.append "/" name).

(** A computation that logs its calls and may stop with an error. *)
Definition Run (A : Type) : Type :=
  list Event → (PrepareError + A) * list Event.

Definition ret {A} (a : A) : Run A := λ tr, (inr a, tr).
Definition fail {A} (e : PrepareError) : Run A := λ tr, (inl e, tr).
Definition emit (ev : Event) : Run unit := λ tr, (inr tt, tr ++ [ev]).
Definition lift {A} (r : PrepareError + A) : Run A := λ tr, (r, tr).
Definition bind {A B} (c : Run A) (k : A → Run B) : Run B :=
  λ tr, match c tr with
        | (inr a, tr') => k a tr'
        | (inl e, tr') => (inl e, tr')
        end.

Declare Scope run_scope.
Delimit Scope run_scope with run.
Notation "'do' x <- c ; k" := (bind c (λ x, k))
  (at level 10, x name, c at level 100, k at level 200) : run_scope.
Notation "c ;; k" := (bind c (λ _, k))
  (at level 100, k at level 200, right associativity) : run_scope.

Definition prepareLoadPlanFromFile (w : World) (path : string)
    : LoadError + Plan :=
  match w_ReadFile w path with
  | inr err => inl (ErrReadFile err)
  | inl data =>
    match w_Unmarshal w data with
    | inr err => inl (ErrParseJSON err)
    | inl plan => inr plan
    end
  end.

(** The plan file [runPrepare] settles on: the flag, else coolpack.json in
    the project root when [os.Stat] finds it, else none ([""]). *)
Definition choosePlanFile (w : World) (absPath : string) : string :=
  let planFile := preparePlanFile (w_flags w) in
  if decide (planFile = "") then
    let defaultPlanFile := Join absPath "coolpack.json" in
    match w_Stat w defaultPlanFile with
    | StatOk => defaultPlanFile
    | _ => planFile
    end
  else planFile.

Local Open Scope run_scope.

(** [plan, err = prepareLoadPlanFromFile(planFile)] followed by the
    wrapping of the error. *)
Definition loadOutcome (w : World) (planFile : string) : PrepareError + Plan :=
  match prepareLoadPlanFromFile w planFile with
  | inl err => inl (ErrLoadPlanFile err)
  | inr plan => inr plan
  end.

(** [plan, err = d.Detect()] followed by the two tests on its result. *)
Definition detectOutcome (w : World) (absPath : string)
    : PrepareError + Plan :=
  match w_Detect w absPath with
  | (_, Some err) => inl (ErrDetectionFailed err)
  | (None, None) => inl ErrNoSupportedApplication
  | (Some plan, None) => inr plan
  end.

Definition usingPlanFileText (planFile : string) : string :=
  String.append "Using plan file: "
    (String.append planFile (String "010" "")).

(** The base Plan: from the plan file or from detection. *)
Definition basePlan (w : World) (absPath : string) : Run Plan :=
  let planFile := choosePlanFile w absPath in
  if decide (planFile ≠ "") then
    emit (EvPrintf (usingPlanFileText planFile)) ;;
    emit (EvLoadPlanFromFile planFile) ;;
    lift (loadOutcome w planFile)
  else
    emit (EvDetect absPath) ;;
    lift (detectOutcome w absPath).

(** The five helpers and the build environment, each logged as it is
    called. *)
Definition applyOverlays (w : World) (plan : Plan) : Run Plan :=
  let flags := w_flags w in
  let environ := w_environ w in
  emit (EvOverlay CommandOverrides) ;;
  let plan := prepareApplyCommandOverrides environ plan
                (prepareInstallCmd flags) (prepareBuildCmd flags)
                (prepareStartCmd flags) in
  emit (EvOverlay StaticServerSetting) ;;
  let plan := prepareApplyStaticServerSetting environ plan
                (prepareStaticServer flags) in
  emit (EvOverlay SPASetting) ;;
  let plan := prepareApplySPASetting environ plan
                (prepareSPA flags) (prepareNoSPA flags) in
  emit (EvOverlay OutputDirSetting) ;;
  let plan := prepareApplyOutputDirSetting environ plan
                (prepareOutputDir flags) in
  emit (EvOverlay CustomPackages) ;;
  let plan := prepareApplyCustomPackages environ plan
                (preparePackages flags) in
  emit (EvOverlay BuildEnvironment) ;;
  ret (applyBuildEnv environ plan (prepareBuildEnvs flags)).

(** Directory, generator and the write of the Dockerfile. *)
Definition generateAndWrite (w : World) (absPath : string) (plan : Plan)
    : Run unit :=
  let coolpackDir := Join absPath ".coolpack" in
  emit (EvMkdirAll coolpackDir) ;;
  match w_MkdirAll w coolpackDir with
  | Some err => fail (ErrCreateDirectory err)
  | None =>
    emit (EvGenerateDockerfile plan) ;;
    match w_GenerateDockerfile w plan with
    | (_, Some err) => fail (ErrGenerateDockerfile err)
    | (dockerfile, None) =>
      let dockerfilePath := Join coolpackDir "Dockerfile" in
      emit (EvWriteFile dockerfilePath dockerfile) ;;
      match w_WriteFile w dockerfilePath dockerfile with
      | Some err => fail (ErrWriteDockerfile err)
      | None =>
        emit (EvPrintf (String.append "Generated files in "
                (String.append coolpackDir (String ":" (String "010" ""))))) ;;
        emit (EvPrintf (String.append "  - Dockerfile" (String "010" ""))) ;;
        ret tt
      end
    end
  end.

(** The path to analyse: ["."], the first argument, or the --path flag. *)
Definition targetPath (w : World) : string :=
  let path := "." in
  let path := match w_args w with
              | arg :: _ => arg
              | [] => path
              end in
  if decide (preparePath (w_flags w) ≠ "") then preparePath (w_flags w)
  else path.

Definition runPrepare (w : World) : Run unit :=
  match w_Abs w (targetPath w) with
  | inr err => fail (ErrResolvePath err)
  | inl absPath =>
    match w_Stat w absPath with
    | StatNotExist => fail (ErrPathDoesNotExist absPath)
    | _ =>
      do plan <- basePlan w absPath ;
      do plan <- applyOverlays w plan ;
      generateAndWrite w absPath plan
    end
  end.

Local Close Scope run_scope.

(** The result and the log of one invocation. *)
Definition resultOf (w : World) : PrepareError + unit := fst (runPrepare w []).
Definition traceOf (w : World) : list Event := snd (runPrepare w []).

(** ** Definitions used to state the properties *)

(** Deduplication preserving the first occurrence of each entry, as a
    function of the list alone: the head stays and is struck from the
    rest. *)
Fixpoint keepFirst (l : list string) : list string :=
  match l with
  | [] => []
  | x :: rest => x :: filter (λ y, y ≠ x) (keepFirst rest)
  end.

(** The value a field ends with, given the override found for it. *)
Definition orPrior (new : option string) (prior : string) : string :=
  match new with
  | Some v => v
  | None => prior
  end.

Definition orPriorValue (new : option string) (prior : option Value)
    : option Value :=
  match new with
  | Some v => Some (VString v)
  | None => prior
  end.

(** Two Plans with the same commands, language and build environment. *)
Definition sameCommands (plan plan' : Plan) : Prop :=
  Language plan' = Language plan
  ∧ PackageManager plan' = PackageManager plan
  ∧ InstallCommand plan' = InstallCommand plan
  ∧ BuildCommand plan' = BuildCommand plan
  ∧ StartCommand plan' = StartCommand plan
  ∧ BuildEnv plan' = BuildEnv plan.

(** A layer overwrites the prior value exactly when it supplies a
    non-empty value; the layers are applied in the order environment,
    then command line, on top of the base value. *)
Definition overwriteIfNonEmpty {A} (inject : string → A) (prior : A)
    (layer : string) : A :=
  if decide (layer ≠ "") then inject layer else prior.

Definition lastNonEmptyWins {A} (inject : string → A) (base : A)
    (env cli : string) : A :=
  fold_left (overwriteIfNonEmpty inject) [env; cli] base.

(** The layers of the override order, lowest priority first. *)
Inductive Layer : Type := BaseLayer | EnvLayer | CliLayer.

Definition priority (l : Layer) : nat :=
  match l with
  | BaseLayer => 0
  | EnvLayer => 1
  | CliLayer => 2
  end.

Definition allLayers : list Layer := [BaseLayer; EnvLayer; CliLayer].

Section SpaSignals.

Variables (environ : gmap string string) (flags : Flags) (plan : Plan).

(** The enable signal of a layer: the key already in the base Plan
    (auto-detected or from the plan file), COOLPACK_SPA, --spa. *)
Definition spaEnable (l : Layer) : bool :=
  match l with
  | BaseLayer => bool_decide (is_Some (metadataLookup plan "is_spa"))
  | EnvLayer => envTruthy environ "COOLPACK_SPA"
  | CliLayer => prepareSPA flags
  end.

(** The disable signal of a layer: COOLPACK_NO_SPA, --no-spa; the base
    has none. *)
Definition spaDisable (l : Layer) : bool :=
  match l with
  | BaseLayer => false
  | EnvLayer => envTruthy environ "COOLPACK_NO_SPA"
  | CliLayer => prepareNoSPA flags
  end.

(** The rule as the specification words it: some enable signal fired and
    no disable signal fired at equal or higher priority. *)
Definition specIsSpaPresent : bool :=
  existsb (λ l, spaEnable l
                && forallb (λ l', negb (priority l <=? priority l')%nat
                                  || negb (spaDisable l')) allLayers)
          allLayers.

(** The rule of the code: some enable signal fired and no disable signal
    fired at any layer. *)
Definition anyEnable : bool := existsb spaEnable allLayers.
Definition anyDisable : bool := existsb spaDisable allLayers.

Definition isSpaPresent : bool :=
  bool_decide
    (is_Some (metadataLookup (resolvePlan environ flags plan) "is_spa")).

End SpaSignals.

(** *** Example inputs *)

(** The zero Plan and the flags at their defaults; --spa alone, with
    COOLPACK_NO_SPA=1 in the environment; --spa with --no-spa on a Plan that
    detection marked as a single-page application. *)
Definition emptyPlan : Plan := mkPlan "" "" "" "" "" ∅ None.

Definition noFlags : Flags :=
  mkFlags "" [] "" "" "" "" "" false false [] "".

Definition flagsSpa : Flags :=
  mkFlags "" [] "" "" "" "" "" true false [] "".

Definition environNoSpa : gmap string string := {["COOLPACK_NO_SPA" := "1"]}.

Definition flagsSpaNoSpa : Flags :=
  mkFlags "" [] "" "" "" "" "" true true [] "".

Definition spaPlan : Plan :=
  mkPlan "node" "npm" "npm ci" "npm run build" ""
         ∅ (Some {["is_spa" := VBool true]}).

(** The packages a Plan carries, read the way
    [prepareApplyCustomPackages] reads them. *)
Definition customPackagesOf (plan : Plan) : list string :=
  existingCustomPackages (metadataLookup plan "custom_packages").

(** The packages of COOLPACK_PACKAGES: split on commas, each entry trimmed
    of surrounding white space, empty entries dropped. *)
Definition environmentPackages (environ : gmap string string) : list string :=
  filter (λ pkg, pkg ≠ "")
    (GoStrings.TrimSpace <$>
       GoStrings.SplitComma (GoOs.Getenv environ "COOLPACK_PACKAGES")).

(** Kinds of logged calls. *)
Definition isDetect (ev : Event) : bool :=
  match ev with EvDetect _ => true | _ => false end.
Definition isOverlay (ev : Event) : bool :=
  match ev with EvOverlay _ => true | _ => false end.
Definition isGenerate (ev : Event) : bool :=
  match ev with EvGenerateDockerfile _ => true | _ => false end.
Definition isArtifact (ev : Event) : bool :=
  match ev with EvMkdirAll _ | EvWriteFile _ _ => true | _ => false end.

(** A run that made no overlay call, no generator call and wrote
    nothing. *)
Definition abortedEarly (tr : list Event) : Prop :=
  existsb isOverlay tr = false
  ∧ existsb isGenerate tr = false
  ∧ existsb isArtifact tr = false.

Definition overlayCalls : list Event :=
  [EvOverlay CommandOverrides; EvOverlay StaticServerSetting;
   EvOverlay SPASetting; EvOverlay OutputDirSetting;
   EvOverlay CustomPackages; EvOverlay BuildEnvironment].

(** What follows the overlays, as a result. *)
Definition generateOutcome (w : World) (absPath : string) (plan : Plan)
    : PrepareError + unit :=
  match w_GenerateDockerfile w plan with
  | (_, Some err) => inl (ErrGenerateDockerfile err)
  | (dockerfile, None) =>
    match w_WriteFile w (Join (Join absPath ".coolpack") "Dockerfile")
            dockerfile with
    | Some err => inl (ErrWriteDockerfile err)
    | None => inr tt
    end
  end.

(** Modelled from the spec: a provider of the registry of pkg/detector,
    which is not among the sources at hand.  Sections 3 and 4.1: a name,
    [Matches] and [DefaultPlan], both functions of the filesystem snapshot
    (the files present and their contents). *)
Record Provider : Type := mkProvider {
  providerName : string;
  Matches : gmap string string → bool;
  DefaultPlan : gmap string string → Plan
}.

(** Modelled from the spec: [Detect] of pkg/detector.  Section 4.1: the
    registry holds the providers in a fixed priority order; detection
    selects the first provider whose [Matches] returns true and takes its
    default Plan; if no provider matches, detection fails.  That failure
    reaches [runPrepare] as a nil Plan with a nil error, the case its
    [plan == nil] test is there for. *)
Definition Detect (registry : list Provider) (snapshot : gmap string string)
    : option Plan * option string :=
  match List.find (λ p, Matches p snapshot) registry with
  | Some p => (Some (DefaultPlan p snapshot), None)
  | None => (None, None)
  end.

(** A Plan the invariant of the data model rejects: no install, build or
    start command, and a language other than static. *)
Definition planInvalid (plan : Plan) : bool :=
  bool_decide (InstallCommand plan = "")
  && bool_decide (BuildCommand plan = "")
  && bool_decide (StartCommand plan = "")
  && negb (bool_decide (Language plan = "static")).

(** *** Example worlds *)

(** A project at /app whose files are [files]; the flags and the
    environment are given.  encoding/json is needed on two inputs only: the
    empty object, which leaves the Plan at its zero value, and a text that
    is no JSON.  The generator refuses a Plan without start command that
    is not static, as section 4.3 of the specification has it, and
    returns a fixed text otherwise. *)
Definition nodeProvider : Provider :=
  mkProvider "node"
    (λ snapshot, bool_decide (is_Some (snapshot !! "/app/package.json")))
    (λ _, mkPlan "node" "npm" "npm ci" "npm run build" "npm start" ∅ None).

Definition exampleRegistry : list Provider := [nodeProvider].

Definition exampleUnmarshal (data : string) : Plan + string :=
  if decide (data = "{}") then inl emptyPlan
  else inr "invalid character 'o' in literal null (expecting 'u')".

Definition exampleGenerate (plan : Plan) : string * option string :=
  if bool_decide (StartCommand plan ≠ "")
     || bool_decide (Language plan = "static")
     || bool_decide (is_Some (metadataLookup plan "is_spa"))
  then ("FROM scratch", None)
  else ("", Some "no runtime strategy").

Definition exampleWorld (flags : Flags) (environ : gmap string string)
    (files : gmap string string) : World :=
  mkWorld [] flags environ
    (λ path, inl (if decide (path = ".") then "/app" else path))
    (λ path, if decide (path = "/app") then StatOk
             else if bool_decide (is_Some (files !! path)) then StatOk
             else StatNotExist)
    (λ path, match files !! path with
             | Some data => inl data
             | None => inr "no such file or directory"
             end)
    exampleUnmarshal
    (λ _, Detect exampleRegistry files)
    (λ _, None)
    exampleGenerate
    (λ _ _, None).

(** An empty directory. *)
Definition worldEmptyDir : World := exampleWorld noFlags ∅ ∅.

(** A directory whose coolpack.json is the empty object. *)
Definition worldEmptyPlanFile : World :=
  exampleWorld noFlags ∅ {["/app/coolpack.json" := "{}"]}.

(** A directory whose coolpack.json is no JSON, next to a package.json a
    provider would match. *)
Definition worldBrokenPlanFile : World :=
  exampleWorld noFlags ∅
    {["/app/coolpack.json" := "nope"; "/app/package.json" := "{}"]}.

(** ** Definitions used to state further properties *)

(** A byte string that holds an equals sign, a comma. *)
Definition hasEquals (s : string) : Prop :=
  In "="%char (list_ascii_of_string s).

Definition hasComma (s : string) : Prop :=
  In ","%char (list_ascii_of_string s).

(** What one --build-env argument binds: KEY=value binds KEY, a bare name
    binds itself to its value in the environment, if it has one. *)
Definition argBinding (environ : gmap string string) (arg : string)
    : option (string * string) :=
  match GoStrings.cutEquals arg with
  | Some (key, value) => Some (key, value)
  | None => (λ value, (arg, value)) <$> GoOs.LookupEnv environ arg
  end.

(** The values the arguments bind to [key], in argument order. *)
Definition valuesFor (environ : gmap string string) (key : string)
    (envArgs : list string) : list string :=
  omap (λ arg, match argBinding environ arg with
               | Some (k, v) => if decide (k = key) then Some v else None
               | None => None
               end) envArgs.

(** The number of commas in a byte string. *)
Fixpoint countCommas (s : string) : nat :=
  match s with
  | EmptyString => 0
  | String c rest =>
    (if GoStrings.byte_is 44 c then 1 else 0) + countCommas rest
  end.

(** A byte string that starts, or ends, with a white-space rune. *)
Definition startsWithSpace (s : string) : Prop :=
  GoStrings.spaceWidth (list_ascii_of_string s) ≠ 0.

Definition endsWithSpace (s : string) : Prop :=
  GoStrings.spaceWidthRev (rev (list_ascii_of_string s)) ≠ 0.

(** A byte list made of white-space runes only. *)
Inductive spaceRunes : list ascii → Prop :=
  | spaceRunes_nil : spaceRunes []
  | spaceRunes_app (rune rest : list ascii) :
      rune ≠ [] →
      GoStrings.spaceWidth rune = length rune →
      spaceRunes rest →
      spaceRunes (rune ++ rest).

(** The string read from one element of a decoded JSON array. *)
Definition stringElement (v : Value) : option string :=
  match v with
  | VString s => Some s
  | _ => None
  end.

(** The six overlay steps of [runPrepare], in its order, as functions of
    the Plan, and the application of a list of steps from left to
    right. *)
Definition overlayStages (environ : gmap string string) (flags : Flags)
    : list (Plan → Plan) :=
  [ (λ p, prepareApplyCommandOverrides environ p (prepareInstallCmd flags)
            (prepareBuildCmd flags) (prepareStartCmd flags));
    (λ p, prepareApplyStaticServerSetting environ p
            (prepareStaticServer flags));
    (λ p, prepareApplySPASetting environ p (prepareSPA flags)
            (prepareNoSPA flags));
    (λ p, prepareApplyOutputDirSetting environ p (prepareOutputDir flags));
    (λ p, prepareApplyCustomPackages environ p (preparePackages flags));
    (λ p, applyBuildEnv environ p (prepareBuildEnvs flags)) ].

Definition applyStages (stages : list (Plan → Plan)) (plan : Plan) : Plan :=
  fold_left (λ p stage, stage p) stages plan.

(** A step that leaves commands, language and build environment, makes
    the metadata map non-nil and rewrites the entry of one key from what
    that entry was. *)
Definition metadataStage (key : string)
    (h : option Value → option Value) (f : Plan → Plan) : Prop :=
  ∀ p, sameCommands p (f p)
       ∧ is_Some (Metadata (f p))
       ∧ ∀ k, metadataLookup (f p) k
              = if decide (k = key) then h (metadataLookup p k)
                else metadataLookup p k.

(** A step that leaves the metadata and computes the other fields from
    the other fields. *)
Definition fieldStage (f : Plan → Plan) : Prop :=
  ∀ p, Metadata (f p) = Metadata p
       ∧ ∀ q, sameCommands p q → sameCommands (f p) (f q).

(** The metadata keys the overlay writes, and the environment variables
    it reads by name. *)
Definition resolvedKeys : list string :=
  ["static_server"; "is_spa"; "output_dir_override"; "custom_packages"].

Definition readVariables : list string :=
  ["COOLPACK_INSTALL_CMD"; "COOLPACK_BUILD_CMD"; "COOLPACK_START_CMD";
   "COOLPACK_STATIC_SERVER"; "COOLPACK_NO_SPA"; "COOLPACK_SPA";
   "COOLPACK_SPA_OUTPUT_DIR"; "COOLPACK_PACKAGES"].

(** More kinds of logged calls. *)
Definition isLoad (ev : Event) : bool :=
  match ev with EvLoadPlanFromFile _ => true | _ => false end.

Definition isWrite (ev : Event) : bool :=
  match ev with EvWriteFile _ _ => true | _ => false end.

(** The calls after the overlays of a run that succeeds. *)
Definition generateCalls (absPath : string) (plan : Plan)
    (dockerfile : string) : list Event :=
  let coolpackDir := Join absPath ".coolpack" in
  [EvMkdirAll coolpackDir;
   EvGenerateDockerfile plan;
   EvWriteFile (Join coolpackDir "Dockerfile") dockerfile;
   EvPrintf (String.append "Generated files in "
               (String.append coolpackDir (String ":" (String "010" ""))));
   EvPrintf (String.append "  - Dockerfile" (String "010" ""))].

(** *** More example worlds *)

(** A directory with a package.json, which the node provider matches. *)
Definition worldNodeProject : World :=
  exampleWorld noFlags ∅ {["/app/package.json" := "{}"]}.

(** --plan names a file that is not there, in a directory that has a
    coolpack.json and a package.json. *)
Definition flagsPlanMissing : Flags :=
  mkFlags "" [] "" "" "" "" "" false false [] "/app/custom.json".

Definition worldMissingPlan : World :=
  exampleWorld flagsPlanMissing ∅
    {["/app/coolpack.json" := "{}"; "/app/package.json" := "{}"]}.

(** A world whose detector answers with [answer]. *)
Definition withDetect (answer : option Plan * option string) (w : World)
    : World :=
  mkWorld (w_args w) (w_flags w) (w_environ w) (w_Abs w) (w_Stat w)
    (w_ReadFile w) (w_Unmarshal w) (λ _, answer) (w_MkdirAll w)
    (w_GenerateDockerfile w) (w_WriteFile w).

(** Detection fails on a directory it cannot read, and hands back what it
    had built so far. *)
Definition worldDetectError : World :=
  withDetect (Some emptyPlan, Some "permission denied") worldEmptyDir.

(** * Proofs *)

(** Small runs of the helpers. *)
Example TrimSpace_ascii : GoStrings.TrimSpace "  curl " = "curl".
Proof. reflexivity. Qed.

(** A no-break space (U+00A0) in front and a thin space (U+2009) behind. *)
Example TrimSpace_unicode :
  GoStrings.TrimSpace
    (String "194" (String "160"
       (String.append "git" (String "226" (String "128" (String "137" ""))))))
  = "git".
Proof. vm_compute. reflexivity. Qed.

Example TrimSpace_keeps_inner :
  GoStrings.TrimSpace (String "009" "a b ") = "a b".
Proof. vm_compute. reflexivity. Qed.

Example SplitComma_three :
  GoStrings.SplitComma "curl, wget,,git" = ["curl"; " wget"; ""; "git"].
Proof. reflexivity. Qed.

Example cutEquals_first : GoStrings.cutEquals "A=b=c" = Some ("A", "b=c").
Proof. reflexivity. Qed.

Example deduplicate_first_seen :
  deduplicate ["git"; "curl"; "git"; "wget"; "curl"] = ["git"; "curl"; "wget"].
Proof. vm_compute. reflexivity. Qed.

(** ** Deduplication keeps first occurrences *)

Section KeepFirst.

Implicit Types (l r : list string) (x y : string).

Lemma keepFirst_elem_of l x : x ∈ keepFirst l ↔ x ∈ l.
Proof.
  revert x. induction l as [|a l IH]; intros x; simpl; [done|].
  rewrite !elem_of_cons, list_elem_of_filter, IH.
  destruct (decide (x = a)); naive_solver.
Qed.

Lemma NoDup_filter_string (P : string → Prop) `{!∀ x, Decision (P x)} l :
  NoDup l → NoDup (filter P l).
Proof.
  induction 1 as [|a l Hin Hnd IH]; [constructor|].
  rewrite filter_cons. case_decide; [|done].
  constructor; [|done]. rewrite list_elem_of_filter. tauto.
Qed.

Lemma keepFirst_NoDup l : NoDup (keepFirst l).
Proof.
  induction l as [|a l IH]; simpl; constructor.
  - rewrite list_elem_of_filter. naive_solver.
  - by apply NoDup_filter_string.
Qed.

Lemma filter_keepFirst (P : string → Prop) `{!∀ x, Decision (P x)} l :
  filter P (keepFirst l) = keepFirst (filter P l).
Proof.
  induction l as [|a l IH]; simpl; [done|].
  rewrite !filter_cons. case_decide; simpl.
  - f_equal. rewrite <- IH, !list_filter_filter.
    apply list_filter_iff. tauto.
  - rewrite <- IH, list_filter_filter.
    apply list_filter_iff. intros y. split; [tauto|].
    intros Hy. split; [done|]. by intros ->.
Qed.

Lemma filter_none (P : string → Prop) `{!∀ x, Decision (P x)} l :
  (∀ x, x ∈ l → ¬ P x) → filter P l = [].
Proof.
  induction l as [|a l IH]; intros Hl; [done|].
  rewrite filter_cons_False by (apply Hl; left).
  apply IH. intros x Hx. apply Hl. by right.
Qed.

Lemma filter_all (P : string → Prop) `{!∀ x, Decision (P x)} l :
  (∀ x, x ∈ l → P x) → filter P l = l.
Proof.
  induction l as [|a l IH]; intros Hl; [done|].
  rewrite filter_cons_True by (apply Hl; left).
  f_equal. apply IH. intros x Hx. apply Hl. by right.
Qed.

Lemma keepFirst_app l r :
  keepFirst (l ++ r) = keepFirst l ++ filter (λ y, y ∉ l) (keepFirst r).
Proof.
  induction l as [|a l IH]; simpl.
  - symmetry. apply filter_all. intros y _. apply not_elem_of_nil.
  - f_equal. rewrite IH, filter_app. f_equal.
    rewrite list_filter_filter. apply list_filter_iff.
    intros y. rewrite not_elem_of_cons. tauto.
Qed.

Lemma keepFirst_id l : NoDup l → keepFirst l = l.
Proof.
  induction 1 as [|a l Hin Hnd IH]; simpl; [done|].
  rewrite IH. f_equal. apply filter_all. by intros x Hx ->.
Qed.

(** Entries that are all present already add nothing. *)
Lemma keepFirst_absorb l r :
  (∀ x, x ∈ r → x ∈ l) → keepFirst (keepFirst l ++ r) = keepFirst l.
Proof.
  intros Hsub. rewrite keepFirst_app.
  rewrite (keepFirst_id (keepFirst l)) by apply keepFirst_NoDup.
  rewrite filter_none; [by rewrite app_nil_r|].
  intros x Hx Hnot. apply Hnot.
  apply keepFirst_elem_of, Hsub. by apply keepFirst_elem_of.
Qed.

(** The loop of the source, from any intermediate state. *)
Lemma dedup_loop l : ∀ seen unique,
  snd (fold_left dedupStep l (seen, unique))
  = unique ++ filter (λ y, isSeen seen y = false) (keepFirst l).
Proof.
  induction l as [|a l IH]; intros seen unique; simpl.
  - by rewrite app_nil_r.
  - destruct (isSeen seen a) eqn:Hseen; simpl.
    + rewrite IH. f_equal.
      rewrite filter_cons_False by congruence.
      rewrite list_filter_filter. apply list_filter_iff.
      intros y. split; [|tauto]. intros Hy. split; [done|].
      intros ->. congruence.
    + rewrite IH, <- app_assoc. simpl. f_equal.
      rewrite filter_cons_True by done. f_equal.
      rewrite list_filter_filter. apply list_filter_iff.
      intros y. unfold isSeen.
      destruct (decide (a = y)) as [->|Hne].
      * rewrite lookup_insert_eq. simpl. split; [done|tauto].
      * rewrite lookup_insert_ne by done. split; [|tauto].
        intros Hy. split; [done|congruence].
Qed.

Lemma deduplicate_keepFirst l : deduplicate l = keepFirst l.
Proof.
  unfold deduplicate. rewrite dedup_loop. simpl.
  apply filter_all. intros x _. unfold isSeen. by rewrite lookup_empty.
Qed.

End KeepFirst.

(** ** What each helper reads and writes *)

Section Frame.

Variable environ : gmap string string.
Implicit Types (plan : Plan) (key : string).

Lemma metadataLookup_setMetadata m plan key :
  metadataLookup (setMetadata m plan) key = m !! key.
Proof. reflexivity. Qed.

Lemma metadataOrEmpty_setMetadata m plan :
  metadataOrEmpty (setMetadata m plan) = m.
Proof. reflexivity. Qed.

(** Command overrides leave the metadata and the build environment. *)
Lemma CommandOverrides_Metadata plan i b s :
  Metadata (prepareApplyCommandOverrides environ plan i b s) = Metadata plan.
Proof.
  unfold prepareApplyCommandOverrides.
  repeat case_match; reflexivity.
Qed.

Lemma CommandOverrides_metadataLookup plan i b s key :
  metadataLookup (prepareApplyCommandOverrides environ plan i b s) key
  = metadataLookup plan key.
Proof.
  unfold metadataLookup, metadataOrEmpty.
  by rewrite CommandOverrides_Metadata.
Qed.

Lemma CommandOverrides_BuildEnv plan i b s :
  BuildEnv (prepareApplyCommandOverrides environ plan i b s) = BuildEnv plan.
Proof.
  unfold prepareApplyCommandOverrides.
  repeat case_match; reflexivity.
Qed.

Lemma CommandOverrides_commands plan i b s :
  let plan' := prepareApplyCommandOverrides environ plan i b s in
  InstallCommand plan'
    = orPrior (overrideValue environ i "COOLPACK_INSTALL_CMD")
              (InstallCommand plan)
  ∧ BuildCommand plan'
    = orPrior (overrideValue environ b "COOLPACK_BUILD_CMD")
              (BuildCommand plan)
  ∧ StartCommand plan'
    = orPrior (overrideValue environ s "COOLPACK_START_CMD")
              (StartCommand plan).
Proof.
  unfold prepareApplyCommandOverrides, orPrior.
  repeat case_match; repeat split; reflexivity.
Qed.

Lemma sameCommands_setMetadata m plan :
  sameCommands plan (setMetadata m plan).
Proof. repeat split. Qed.

Lemma sameCommands_trans p1 p2 p3 :
  sameCommands p1 p2 → sameCommands p2 p3 → sameCommands p1 p3.
Proof. unfold sameCommands. intuition congruence. Qed.

Lemma StaticServer_sameCommands plan v :
  sameCommands plan (prepareApplyStaticServerSetting environ plan v).
Proof.
  unfold prepareApplyStaticServerSetting.
  case_match; apply sameCommands_setMetadata.
Qed.

Lemma SPASetting_sameCommands plan spa noSPA :
  sameCommands plan (prepareApplySPASetting environ plan spa noSPA).
Proof.
  unfold prepareApplySPASetting.
  repeat case_match; apply sameCommands_setMetadata.
Qed.

Lemma OutputDir_sameCommands plan v :
  sameCommands plan (prepareApplyOutputDirSetting environ plan v).
Proof.
  unfold prepareApplyOutputDirSetting.
  case_match; apply sameCommands_setMetadata.
Qed.

Lemma CustomPackages_sameCommands plan pkgs :
  sameCommands plan (prepareApplyCustomPackages environ plan pkgs).
Proof.
  unfold prepareApplyCustomPackages.
  case_match; apply sameCommands_setMetadata.
Qed.

Lemma StaticServer_metadataLookup plan v key :
  metadataLookup (prepareApplyStaticServerSetting environ plan v) key
  = if decide (key = "static_server")
    then orPriorValue (overrideValue environ v "COOLPACK_STATIC_SERVER")
                      (metadataLookup plan key)
    else metadataLookup plan key.
Proof.
  unfold prepareApplyStaticServerSetting, orPriorValue.
  destruct (overrideValue _ _ _); rewrite metadataLookup_setMetadata;
    case_decide; subst; try done.
  - by rewrite lookup_insert_eq.
  - by rewrite lookup_insert_ne.
Qed.

Lemma OutputDir_metadataLookup plan v key :
  metadataLookup (prepareApplyOutputDirSetting environ plan v) key
  = if decide (key = "output_dir_override")
    then orPriorValue (overrideValue environ v "COOLPACK_SPA_OUTPUT_DIR")
                      (metadataLookup plan key)
    else metadataLookup plan key.
Proof.
  unfold prepareApplyOutputDirSetting, orPriorValue.
  destruct (overrideValue _ _ _); rewrite metadataLookup_setMetadata;
    case_decide; subst; try done.
  - by rewrite lookup_insert_eq.
  - by rewrite lookup_insert_ne.
Qed.

Lemma SPASetting_metadataLookup plan spa noSPA key :
  metadataLookup (prepareApplySPASetting environ plan spa noSPA) key
  = if decide (key = "is_spa")
    then if noSPA || envTruthy environ "COOLPACK_NO_SPA" then None
         else if spa || envTruthy environ "COOLPACK_SPA"
              then Some (VBool true)
              else metadataLookup plan key
    else metadataLookup plan key.
Proof.
  unfold prepareApplySPASetting.
  destruct noSPA, (envTruthy environ "COOLPACK_NO_SPA"), spa,
    (envTruthy environ "COOLPACK_SPA"); simpl;
    rewrite metadataLookup_setMetadata; case_decide; subst;
    rewrite ?lookup_delete_eq, ?lookup_insert_eq; try done;
    by rewrite ?lookup_delete_ne, ?lookup_insert_ne.
Qed.

Lemma CustomPackages_metadataLookup plan pkgs key :
  metadataLookup (prepareApplyCustomPackages environ plan pkgs) key
  = if decide (key = "custom_packages")
    then if decide (collectCustomPackages environ plan pkgs = [])
         then metadataLookup plan key
         else Some (VStrings
                (deduplicate (collectCustomPackages environ plan pkgs)))
    else metadataLookup plan key.
Proof.
  unfold prepareApplyCustomPackages.
  case_bool_decide as Hlen; rewrite metadataLookup_setMetadata.
  - apply length_zero_iff_nil in Hlen.
    by repeat case_decide.
  - assert (collectCustomPackages environ plan pkgs ≠ []) as Hne
      by (intros Hnil; apply Hlen; by rewrite Hnil).
    repeat case_decide; subst; try done.
    + by rewrite lookup_insert_eq.
    + by rewrite lookup_insert_ne.
Qed.

Lemma applyBuildEnv_Metadata plan envs :
  Metadata (applyBuildEnv environ plan envs) = Metadata plan.
Proof. unfold applyBuildEnv. by case_match. Qed.

Lemma applyBuildEnv_metadataLookup plan envs key :
  metadataLookup (applyBuildEnv environ plan envs) key
  = metadataLookup plan key.
Proof.
  unfold metadataLookup, metadataOrEmpty.
  by rewrite applyBuildEnv_Metadata.
Qed.

Lemma applyBuildEnv_commands plan envs :
  let plan' := applyBuildEnv environ plan envs in
  Language plan' = Language plan
  ∧ PackageManager plan' = PackageManager plan
  ∧ InstallCommand plan' = InstallCommand plan
  ∧ BuildCommand plan' = BuildCommand plan
  ∧ StartCommand plan' = StartCommand plan.
Proof. unfold applyBuildEnv. by case_match. Qed.

End Frame.

(** ** Scalar fields: the last non-empty value wins *)

Lemma orPrior_lastNonEmptyWins environ cli name prior :
  orPrior (overrideValue environ cli name) prior
  = lastNonEmptyWins id prior (GoOs.Getenv environ name) cli.
Proof.
  unfold orPrior, overrideValue, lastNonEmptyWins, overwriteIfNonEmpty.
  simpl. by repeat case_decide.
Qed.

Lemma orPriorValue_lastNonEmptyWins environ cli name prior :
  orPriorValue (overrideValue environ cli name) prior
  = lastNonEmptyWins (λ v, Some (VString v)) prior
      (GoOs.Getenv environ name) cli.
Proof.
  unfold orPriorValue, overrideValue, lastNonEmptyWins, overwriteIfNonEmpty.
  simpl. by repeat case_decide.
Qed.

Ltac resolved_lookup :=
  unfold resolvePlan;
  rewrite applyBuildEnv_metadataLookup, CustomPackages_metadataLookup,
    OutputDir_metadataLookup, SPASetting_metadataLookup,
    StaticServer_metadataLookup, CommandOverrides_metadataLookup;
  repeat (case_decide; try discriminate); try done.

Lemma resolvePlan_static_server environ flags plan :
  metadataLookup (resolvePlan environ flags plan) "static_server"
  = orPriorValue
      (overrideValue environ (prepareStaticServer flags)
         "COOLPACK_STATIC_SERVER")
      (metadataLookup plan "static_server").
Proof. resolved_lookup. Qed.

Lemma resolvePlan_output_dir_override environ flags plan :
  metadataLookup (resolvePlan environ flags plan) "output_dir_override"
  = orPriorValue
      (overrideValue environ (prepareOutputDir flags)
         "COOLPACK_SPA_OUTPUT_DIR")
      (metadataLookup plan "output_dir_override").
Proof. resolved_lookup. Qed.

Lemma resolvePlan_is_spa environ flags plan :
  metadataLookup (resolvePlan environ flags plan) "is_spa"
  = if prepareNoSPA flags || envTruthy environ "COOLPACK_NO_SPA" then None
    else if prepareSPA flags || envTruthy environ "COOLPACK_SPA"
         then Some (VBool true)
         else metadataLookup plan "is_spa".
Proof. resolved_lookup. Qed.

Lemma resolvePlan_sameCommands environ flags plan :
  let overridden :=
    prepareApplyCommandOverrides environ plan (prepareInstallCmd flags)
      (prepareBuildCmd flags) (prepareStartCmd flags) in
  let plan' := resolvePlan environ flags plan in
  InstallCommand plan' = InstallCommand overridden
  ∧ BuildCommand plan' = BuildCommand overridden
  ∧ StartCommand plan' = StartCommand overridden.
Proof.
  intros overridden plan'. subst plan'. unfold resolvePlan.
  fold overridden.
  pose proof (StaticServer_sameCommands environ overridden
                (prepareStaticServer flags)) as H1.
  set (p1 := prepareApplyStaticServerSetting _ _ _) in *.
  pose proof (SPASetting_sameCommands environ p1 (prepareSPA flags)
                (prepareNoSPA flags)) as H2.
  set (p2 := prepareApplySPASetting _ _ _ _) in *.
  pose proof (OutputDir_sameCommands environ p2 (prepareOutputDir flags))
    as H3.
  set (p3 := prepareApplyOutputDirSetting _ _ _) in *.
  pose proof (CustomPackages_sameCommands environ p3 (preparePackages flags))
    as H4.
  set (p4 := prepareApplyCustomPackages _ _ _) in *.
  pose proof (applyBuildEnv_commands environ p4 (prepareBuildEnvs flags))
    as H5.
  unfold sameCommands in *. simpl in H5. intuition congruence.
Qed.

(** C3. Every scalar field of the resolved Plan (install, build and start
    command, static-server choice, output-directory override) is the last
    non-empty value in the order base, environment, command line: a layer
    overwrites exactly when it supplies a non-empty value, and an empty or
    absent override leaves the prior value as it was. *)
Theorem scalar_last_non_empty_wins :
  ∀ (environ : gmap string string) (flags : Flags) (plan : Plan),
    let final := resolvePlan environ flags plan in
    InstallCommand final
      = lastNonEmptyWins id (InstallCommand plan)
          (GoOs.Getenv environ "COOLPACK_INSTALL_CMD")
          (prepareInstallCmd flags)
    ∧ BuildCommand final
      = lastNonEmptyWins id (BuildCommand plan)
          (GoOs.Getenv environ "COOLPACK_BUILD_CMD")
          (prepareBuildCmd flags)
    ∧ StartCommand final
      = lastNonEmptyWins id (StartCommand plan)
          (GoOs.Getenv environ "COOLPACK_START_CMD")
          (prepareStartCmd flags)
    ∧ metadataLookup final "static_server"
      = lastNonEmptyWins (λ v, Some (VString v))
          (metadataLookup plan "static_server")
          (GoOs.Getenv environ "COOLPACK_STATIC_SERVER")
          (prepareStaticServer flags)
    ∧ metadataLookup final "output_dir_override"
      = lastNonEmptyWins (λ v, Some (VString v))
          (metadataLookup plan "output_dir_override")
          (GoOs.Getenv environ "COOLPACK_SPA_OUTPUT_DIR")
          (prepareOutputDir flags).
Proof.
  intros environ flags plan final. subst final.
  destruct (resolvePlan_sameCommands environ flags plan) as (Hi & Hb & Hs).
  destruct (CommandOverrides_commands environ plan (prepareInstallCmd flags)
              (prepareBuildCmd flags) (prepareStartCmd flags))
    as (Hi' & Hb' & Hs').
  rewrite Hi, Hb, Hs, Hi', Hb', Hs', !orPrior_lastNonEmptyWins.
  rewrite resolvePlan_static_server, resolvePlan_output_dir_override.
  rewrite !orPriorValue_lastNonEmptyWins. done.
Qed.

(** ** SPA mode *)

Lemma isSpaPresent_eq environ flags plan :
  isSpaPresent environ flags plan
  = anyEnable environ flags plan && negb (anyDisable environ flags).
Proof.
  unfold isSpaPresent, anyEnable, anyDisable. simpl.
  rewrite resolvePlan_is_spa.
  destruct (prepareNoSPA flags), (envTruthy environ "COOLPACK_NO_SPA"),
    (prepareSPA flags), (envTruthy environ "COOLPACK_SPA"); simpl;
    rewrite ?orb_true_r, ?andb_false_r, ?orb_false_r, ?andb_true_r;
    try done; by (apply bool_decide_eq_false; intros [? ?]).
Qed.

(** C1, as stated, fails: with the enable flag on the command line and the
    only disable signal in the lower-priority environment layer the stated
    rule makes [is_spa] present, and the resolved Plan does not have it. *)
Lemma spa_priority_rule_counterexample :
  spaEnable environNoSpa flagsSpa emptyPlan CliLayer = true
  ∧ spaDisable environNoSpa flagsSpa CliLayer = false
  ∧ spaDisable environNoSpa flagsSpa EnvLayer = true
  ∧ specIsSpaPresent environNoSpa flagsSpa emptyPlan = true
  ∧ metadataLookup (resolvePlan environNoSpa flagsSpa emptyPlan) "is_spa"
    = None
  ∧ isSpaPresent environNoSpa flagsSpa emptyPlan
    ≠ specIsSpaPresent environNoSpa flagsSpa emptyPlan.
Proof.
  assert (metadataLookup (resolvePlan environNoSpa flagsSpa emptyPlan)
            "is_spa" = None) as Habsent
    by (rewrite resolvePlan_is_spa; reflexivity).
  repeat split; try reflexivity; try done.
Qed.

(** C1, amended. For every base Plan, flags and environment, [is_spa] is in
    the resolved Plan's metadata if and only if some enable signal fired
    (--spa, COOLPACK_SPA, or the key already in the base Plan) and no
    disable signal fired at any layer (--no-spa, COOLPACK_NO_SPA), whatever
    the layer of the enable signal. *)
Theorem spa_present_iff_enabled_and_never_disabled :
  ∀ (environ : gmap string string) (flags : Flags) (plan : Plan),
    is_Some (metadataLookup (resolvePlan environ flags plan) "is_spa")
    ↔ (∃ l, spaEnable environ flags plan l = true)
      ∧ (∀ l, spaDisable environ flags l = false).
Proof.
  intros environ flags plan.
  pose proof (isSpaPresent_eq environ flags plan) as Heq.
  unfold isSpaPresent in Heq.
  split.
  - intros Hsome. rewrite bool_decide_eq_true_2 in Heq by done.
    symmetry in Heq. apply andb_true_iff in Heq as [Hen Hdis].
    apply negb_true_iff in Hdis. split.
    + apply existsb_exists in Hen as (l & _ & Hl). by exists l.
    + intros l. destruct (spaDisable environ flags l) eqn:Hl; [|done].
      assert (anyDisable environ flags = true) as Hany; [|congruence].
      apply existsb_exists. exists l. split; [|done].
      destruct l; simpl; tauto.
  - intros [[l Hl] Hnone].
    assert (anyEnable environ flags plan = true) as Hen.
    { apply existsb_exists. exists l. split; [|done].
      destruct l; simpl; tauto. }
    assert (anyDisable environ flags = false) as Hdis.
    { pose proof (Hnone EnvLayer) as He. pose proof (Hnone CliLayer) as Hc.
      unfold anyDisable. simpl in *. by rewrite He, Hc. }
    rewrite Hen, Hdis in Heq. simpl in Heq.
    by apply bool_decide_eq_true in Heq.
Qed.

(** C6. Whenever a disable signal for SPA mode is supplied at any layer,
    [is_spa] is absent from the resolved Plan's metadata, whether or not an
    enable signal is supplied with it; in particular when both are
    supplied. *)
Theorem spa_disable_removes_key :
  ∀ (environ : gmap string string) (flags : Flags) (plan : Plan)
    (ldis : Layer),
    spaDisable environ flags ldis = true →
    metadataLookup (resolvePlan environ flags plan) "is_spa" = None
    ∧ ∀ len, spaEnable environ flags plan len = true →
        metadataLookup (resolvePlan environ flags plan) "is_spa" = None.
Proof.
  intros environ flags plan ldis Hdis.
  assert (metadataLookup (resolvePlan environ flags plan) "is_spa" = None)
    as Habsent; [|by split].
  rewrite resolvePlan_is_spa.
  destruct ldis; simpl in Hdis; [done| |]; rewrite Hdis;
    by rewrite ?orb_true_r.
Qed.

Lemma spa_disable_removes_key_witness :
  spaDisable ∅ flagsSpaNoSpa CliLayer = true
  ∧ spaEnable ∅ flagsSpaNoSpa spaPlan CliLayer = true
  ∧ metadataLookup (resolvePlan ∅ flagsSpaNoSpa spaPlan) "is_spa" = None.
Proof.
  split; [reflexivity|]. split; [reflexivity|].
  apply (spa_disable_removes_key ∅ flagsSpaNoSpa spaPlan CliLayer).
  reflexivity.
Defined.

(** ** Custom packages: union in first-seen order *)

Section CustomPackagesFacts.

Variable environ : gmap string string.

Lemma appendEnvPackages_filter pieces : ∀ acc,
  appendEnvPackages acc pieces
  = acc ++ filter (λ pkg, pkg ≠ "") (GoStrings.TrimSpace <$> pieces).
Proof.
  unfold appendEnvPackages.
  induction pieces as [|piece pieces IH]; intros acc; simpl.
  - by rewrite app_nil_r.
  - rewrite IH, filter_cons. case_decide; [|done].
    by rewrite <- app_assoc.
Qed.

Lemma collectCustomPackages_concat plan packages :
  collectCustomPackages environ plan packages
  = customPackagesOf plan ++ packages ++ environmentPackages environ.
Proof.
  unfold collectCustomPackages, customPackagesOf, environmentPackages,
    metadataLookup.
  set (existing := existingCustomPackages _).
  assert ((if bool_decide (0 < length packages)
           then existing ++ packages else existing)
          = existing ++ packages) as ->.
  { case_bool_decide; [done|]. destruct packages; simpl in *; [|lia].
    by rewrite app_nil_r. }
  case_decide as Henv.
  - by rewrite appendEnvPackages_filter, app_assoc.
  - rewrite Henv. simpl.
    by rewrite app_nil_r.
Qed.

Lemma collectCustomPackages_ext plan plan' packages :
  metadataLookup plan' "custom_packages"
  = metadataLookup plan "custom_packages" →
  collectCustomPackages environ plan' packages
  = collectCustomPackages environ plan packages.
Proof.
  intros Heq. rewrite !collectCustomPackages_concat.
  unfold customPackagesOf. by rewrite Heq.
Qed.

Lemma resolvePlan_custom_packages flags plan :
  let collected :=
    collectCustomPackages environ plan (preparePackages flags) in
  metadataLookup (resolvePlan environ flags plan) "custom_packages"
  = if decide (collected = [])
    then metadataLookup plan "custom_packages"
    else Some (VStrings (deduplicate collected)).
Proof.
  intros collected. subst collected. unfold resolvePlan.
  rewrite applyBuildEnv_metadataLookup, CustomPackages_metadataLookup.
  rewrite decide_True by done.
  set (p3 := prepareApplyOutputDirSetting _ _ _).
  assert (metadataLookup p3 "custom_packages"
          = metadataLookup plan "custom_packages") as Hsame.
  { subst p3.
    rewrite OutputDir_metadataLookup, SPASetting_metadataLookup,
      StaticServer_metadataLookup, CommandOverrides_metadataLookup.
    by repeat (case_decide; try discriminate). }
  rewrite (collectCustomPackages_ext plan p3) by done.
  by rewrite Hsame.
Qed.

Lemma keepFirst_nil_inv l : keepFirst l = [] → l = [].
Proof. by destruct l. Qed.

End CustomPackagesFacts.

(** C2. For every base Plan, flags and environment, the custom packages
    of the resolved Plan are the prior packages, then the command-line
    packages, then the environment packages (split on commas, trimmed,
    empty entries dropped), deduplicated keeping the first occurrence of
    each entry; the list has no duplicates.  The stored value is that list
    as a [[]string], except that nothing is stored when the concatenation
    is empty. *)
Theorem custom_packages_union_first_seen :
  ∀ (environ : gmap string string) (flags : Flags) (plan : Plan),
    let final := resolvePlan environ flags plan in
    let concatenated :=
      customPackagesOf plan ++ preparePackages flags
        ++ environmentPackages environ in
    customPackagesOf final = keepFirst concatenated
    ∧ NoDup (customPackagesOf final)
    ∧ metadataLookup final "custom_packages"
      = if decide (concatenated = [])
        then metadataLookup plan "custom_packages"
        else Some (VStrings (keepFirst concatenated)).
Proof.
  intros environ flags plan final concatenated.
  assert (metadataLookup final "custom_packages"
          = if decide (concatenated = [])
            then metadataLookup plan "custom_packages"
            else Some (VStrings (keepFirst concatenated))) as Hlookup.
  { subst final. rewrite resolvePlan_custom_packages.
    rewrite collectCustomPackages_concat. fold concatenated.
    by rewrite deduplicate_keepFirst. }
  assert (customPackagesOf final = keepFirst concatenated) as Hlist.
  { unfold customPackagesOf at 1. rewrite Hlookup.
    case_decide as Hnil; [|done].
    assert (customPackagesOf plan = []) as Hprior
      by (by apply app_eq_nil in Hnil as [? _]).
    rewrite Hnil. exact Hprior. }
  split; [done|]. split; [|done].
  rewrite Hlist. apply keepFirst_NoDup.
Qed.

(** Scenario 3: --packages git with COOLPACK_PACKAGES listing curl and
    wget, on a plan file that already asks for curl. *)
Example custom_packages_scenario :
  customPackagesOf
    (resolvePlan {["COOLPACK_PACKAGES" := "curl, wget,"]}
       (mkFlags "" [] "" "" "" "" "" false false ["git"] "")
       (mkPlan "" "" "" "" "" ∅
          (Some {["custom_packages" := VArray [VString "curl"]]})))
  = ["curl"; "git"; "wget"].
Proof. vm_compute. reflexivity. Qed.

(** ** Build environment: replaced as a whole *)

Lemma resolvePlan_BuildEnv environ flags plan :
  BuildEnv (resolvePlan environ flags plan)
  = BuildEnv (applyBuildEnv environ plan (prepareBuildEnvs flags)).
Proof.
  unfold resolvePlan.
  set (p0 := prepareApplyCommandOverrides _ _ _ _ _).
  pose proof (CommandOverrides_BuildEnv environ plan (prepareInstallCmd flags)
                (prepareBuildCmd flags) (prepareStartCmd flags)) as H0.
  fold p0 in H0.
  pose proof (StaticServer_sameCommands environ p0
                (prepareStaticServer flags)) as H1.
  set (p1 := prepareApplyStaticServerSetting _ _ _) in *.
  pose proof (SPASetting_sameCommands environ p1 (prepareSPA flags)
                (prepareNoSPA flags)) as H2.
  set (p2 := prepareApplySPASetting _ _ _ _) in *.
  pose proof (OutputDir_sameCommands environ p2 (prepareOutputDir flags))
    as H3.
  set (p3 := prepareApplyOutputDirSetting _ _ _) in *.
  pose proof (CustomPackages_sameCommands environ p3 (preparePackages flags))
    as H4.
  set (p4 := prepareApplyCustomPackages _ _ _) in *.
  assert (BuildEnv p4 = BuildEnv plan) as Hsame
    by (unfold sameCommands in *; intuition congruence).
  unfold applyBuildEnv. case_bool_decide; simpl; [done|exact Hsame].
Qed.

(** C7. For every base Plan and every --build-env input: when the parsed
    mapping is non-empty the resolved Plan's build environment is that
    mapping, whole (a prior entry whose key is not supplied is gone);
    when it has no entries the prior build environment is unchanged. *)
Theorem build_env_replaced_or_kept :
  ∀ (environ : gmap string string) (flags : Flags) (plan : Plan),
    let envMap := prepareParseEnvVars environ (prepareBuildEnvs flags) in
    let final := resolvePlan environ flags plan in
    BuildEnv final = (if decide (envMap = ∅) then BuildEnv plan else envMap)
    ∧ ∀ key, BuildEnv final !! key
             = if decide (envMap = ∅) then BuildEnv plan !! key
               else envMap !! key.
Proof.
  intros environ flags plan envMap final.
  assert (BuildEnv final
          = if decide (envMap = ∅) then BuildEnv plan else envMap) as Heq.
  { subst final. rewrite resolvePlan_BuildEnv. unfold applyBuildEnv.
    fold envMap. case_bool_decide as Hsize; case_decide as Hempty;
      try done.
    - rewrite Hempty, map_size_empty in Hsize. lia.
    - apply map_size_non_empty_iff in Hempty. lia. }
  split; [done|]. intros key. rewrite Heq. by case_decide.
Qed.

Example build_env_replaces :
  BuildEnv
    (resolvePlan {["TOKEN" := "t0"]}
       (mkFlags "" ["NODE_ENV=production"; "TOKEN"; "MISSING"]
                "" "" "" "" "" false false [] "")
       (mkPlan "node" "npm" "" "" "" {["OLD" := "1"]} None))
  = {["NODE_ENV" := "production"; "TOKEN" := "t0"]}.
Proof. apply map_eq. intros key. vm_compute. reflexivity. Qed.

(** ** Idempotence of the overlay stages *)

Section Idempotence.

Variable environ : gmap string string.

Lemma setMetadata_setMetadata m m' plan :
  setMetadata m' (setMetadata m plan) = setMetadata m' plan.
Proof. reflexivity. Qed.

Lemma CommandOverrides_idempotent plan i b s :
  prepareApplyCommandOverrides environ
    (prepareApplyCommandOverrides environ plan i b s) i b s
  = prepareApplyCommandOverrides environ plan i b s.
Proof.
  unfold prepareApplyCommandOverrides.
  destruct (overrideValue environ i _), (overrideValue environ b _),
    (overrideValue environ s _); reflexivity.
Qed.

Lemma StaticServer_idempotent plan v :
  prepareApplyStaticServerSetting environ
    (prepareApplyStaticServerSetting environ plan v) v
  = prepareApplyStaticServerSetting environ plan v.
Proof.
  unfold prepareApplyStaticServerSetting.
  destruct (overrideValue environ v _);
    rewrite metadataOrEmpty_setMetadata, setMetadata_setMetadata;
    by rewrite ?insert_insert_eq.
Qed.

Lemma OutputDir_idempotent plan v :
  prepareApplyOutputDirSetting environ
    (prepareApplyOutputDirSetting environ plan v) v
  = prepareApplyOutputDirSetting environ plan v.
Proof.
  unfold prepareApplyOutputDirSetting.
  destruct (overrideValue environ v _);
    rewrite metadataOrEmpty_setMetadata, setMetadata_setMetadata;
    by rewrite ?insert_insert_eq.
Qed.

Lemma SPASetting_idempotent plan spa noSPA :
  prepareApplySPASetting environ
    (prepareApplySPASetting environ plan spa noSPA) spa noSPA
  = prepareApplySPASetting environ plan spa noSPA.
Proof.
  unfold prepareApplySPASetting.
  destruct noSPA, (envTruthy environ "COOLPACK_NO_SPA"), spa,
    (envTruthy environ "COOLPACK_SPA");
    rewrite metadataOrEmpty_setMetadata, setMetadata_setMetadata;
    by rewrite ?delete_delete_eq, ?insert_insert_eq.
Qed.

Lemma CustomPackages_idempotent plan packages :
  prepareApplyCustomPackages environ
    (prepareApplyCustomPackages environ plan packages) packages
  = prepareApplyCustomPackages environ plan packages.
Proof.
  set (once := prepareApplyCustomPackages environ plan packages).
  set (collected := collectCustomPackages environ plan packages).
  assert (metadataLookup once "custom_packages"
          = if decide (collected = [])
            then metadataLookup plan "custom_packages"
            else Some (VStrings (deduplicate collected))) as Hlookup.
  { subst once. rewrite CustomPackages_metadataLookup.
    by rewrite decide_True. }
  assert (deduplicate (collectCustomPackages environ once packages)
          = deduplicate collected
          ∧ (collectCustomPackages environ once packages = []
             ↔ collected = [])) as [Hdedup Hnil].
  { destruct (decide (collected = [])) as [Hc|Hc].
    - rewrite (collectCustomPackages_ext environ plan once) by done.
      by fold collected.
    - rewrite collectCustomPackages_concat. unfold customPackagesOf.
      rewrite Hlookup. simpl. rewrite !deduplicate_keepFirst. split.
      + apply keepFirst_absorb. intros x Hx. subst collected.
        rewrite collectCustomPackages_concat.
        apply elem_of_app. by right.
      + split; [|done]. intros [Hk _]%app_eq_nil.
        by apply keepFirst_nil_inv in Hk. }
  subst once. unfold prepareApplyCustomPackages at 1.
  set (once := prepareApplyCustomPackages environ plan packages) in *.
  assert (metadataOrEmpty once
          = if bool_decide (length collected = 0)
            then metadataOrEmpty plan
            else <["custom_packages" := VStrings (deduplicate collected)]>
                   (metadataOrEmpty plan)) as Hmeta.
  { subst once. unfold prepareApplyCustomPackages. fold collected.
    by case_bool_decide. }
  assert (once = setMetadata (metadataOrEmpty once) plan) as Honce.
  { subst once. unfold prepareApplyCustomPackages. fold collected.
    by case_bool_decide. }
  rewrite Hdedup.
  assert (bool_decide
            (length (collectCustomPackages environ once packages) = 0)
          = bool_decide (length collected = 0)) as ->.
  { apply bool_decide_ext. rewrite !length_zero_iff_nil. done. }
  assert (∀ m, setMetadata m once = setMetadata m plan) as Hset
    by (intros m; rewrite Honce; reflexivity).
  rewrite !Hset.
  etrans; [|symmetry; exact Honce].
  rewrite Hmeta. case_bool_decide; [done|].
  by rewrite insert_insert_eq.
Qed.

Lemma applyBuildEnv_idempotent plan envs :
  applyBuildEnv environ (applyBuildEnv environ plan envs) envs
  = applyBuildEnv environ plan envs.
Proof. unfold applyBuildEnv. by case_bool_decide. Qed.

End Idempotence.

(** C9. Each overlay stage is idempotent: for every Plan and every fixed
    flags and environment, applying the stage twice gives the Plan that
    applying it once gives.  This holds for the command overrides, the
    static-server setting, the SPA setting, the output-directory setting,
    the custom-packages merge and the build-environment replacement. *)
Theorem overlay_stages_idempotent :
  ∀ (environ : gmap string string) (flags : Flags) (plan : Plan),
    let commands p :=
      prepareApplyCommandOverrides environ p (prepareInstallCmd flags)
        (prepareBuildCmd flags) (prepareStartCmd flags) in
    let server p :=
      prepareApplyStaticServerSetting environ p (prepareStaticServer flags) in
    let spa p :=
      prepareApplySPASetting environ p (prepareSPA flags)
        (prepareNoSPA flags) in
    let outputDir p :=
      prepareApplyOutputDirSetting environ p (prepareOutputDir flags) in
    let packages p :=
      prepareApplyCustomPackages environ p (preparePackages flags) in
    let buildEnv p := applyBuildEnv environ p (prepareBuildEnvs flags) in
    commands (commands plan) = commands plan
    ∧ server (server plan) = server plan
    ∧ spa (spa plan) = spa plan
    ∧ outputDir (outputDir plan) = outputDir plan
    ∧ packages (packages plan) = packages plan
    ∧ buildEnv (buildEnv plan) = buildEnv plan.
Proof.
  intros environ flags plan. simpl.
  repeat split.
  - apply CommandOverrides_idempotent.
  - apply StaticServer_idempotent.
  - apply SPASetting_idempotent.
  - apply OutputDir_idempotent.
  - apply CustomPackages_idempotent.
  - apply applyBuildEnv_idempotent.
Qed.

(** ** The control flow of [runPrepare] *)

(** *** Unfolding [runPrepare] *)

Section ControlFlow.

Variable w : World.
Variable absPath : string.
Hypothesis Habs : w_Abs w (targetPath w) = inl absPath.
Hypothesis Hstat : w_Stat w absPath ≠ StatNotExist.

Lemma runPrepare_reached tr :
runPrepare w tr
= bind (basePlan w absPath)
    (λ plan, bind (applyOverlays w plan) (generateAndWrite w absPath)) tr.
Proof.
unfold runPrepare. rewrite Habs.
by destruct (w_Stat w absPath).
Qed.

Lemma basePlan_plan_file tr :
choosePlanFile w absPath ≠ "" →
basePlan w absPath tr
= (loadOutcome w (choosePlanFile w absPath),
   tr ++ [EvPrintf (usingPlanFileText (choosePlanFile w absPath));
          EvLoadPlanFromFile (choosePlanFile w absPath)]).
Proof.
intros Hfile. unfold basePlan. rewrite decide_True by done.
unfold bind, emit, lift. simpl. by rewrite <- app_assoc.
Qed.

Lemma basePlan_detection tr :
choosePlanFile w absPath = "" →
basePlan w absPath tr = (detectOutcome w absPath, tr ++ [EvDetect absPath]).
Proof.
intros Hfile. unfold basePlan. rewrite decide_False by (by intros []).
reflexivity.
Qed.

Lemma applyOverlays_run plan tr :
applyOverlays w plan tr
= (inr (resolvePlan (w_environ w) (w_flags w) plan), tr ++ overlayCalls).
Proof.
unfold applyOverlays, bind, emit, ret, resolvePlan, overlayCalls. simpl.
by rewrite <- !app_assoc.
Qed.

Lemma generateAndWrite_result plan tr :
fst (generateAndWrite w absPath plan tr)
= match w_MkdirAll w (Join absPath ".coolpack") with
  | Some err => inl (ErrCreateDirectory err)
  | None => generateOutcome w absPath plan
  end.
Proof.
unfold generateAndWrite, generateOutcome, bind, emit, fail, ret. simpl.
destruct (w_MkdirAll w _); [done|].
destruct (w_GenerateDockerfile w plan) as [dockerfile [err|]]; [done|].
by destruct (w_WriteFile w _ dockerfile).
Qed.

Lemma generateAndWrite_generates plan tr :
w_MkdirAll w (Join absPath ".coolpack") = None →
In (EvGenerateDockerfile plan) (snd (generateAndWrite w absPath plan tr)).
Proof.
intros Hmk.
unfold generateAndWrite, bind, emit, fail, ret. simpl. rewrite Hmk.
destruct (w_GenerateDockerfile w plan) as [dockerfile [err|]]; simpl.
- apply in_or_app. right. by left.
- destruct (w_WriteFile w _ dockerfile); simpl;
    rewrite <- ?app_assoc; simpl;
    repeat (apply in_or_app; right); simpl; tauto.
Qed.

(** A run whose base Plan fails stops there. *)
Lemma runPrepare_base_fails e tr' :
basePlan w absPath [] = (inl e, tr') →
runPrepare w [] = (inl e, tr').
Proof.
intros Hbase. rewrite runPrepare_reached. unfold bind. by rewrite Hbase.
Qed.

(** A run whose base Plan is there goes through every overlay and on to
  the directory and the generator. *)
Lemma runPrepare_base_ok base tr' :
basePlan w absPath [] = (inr base, tr') →
runPrepare w []
= generateAndWrite w absPath
    (resolvePlan (w_environ w) (w_flags w) base) (tr' ++ overlayCalls).
Proof.
intros Hbase. rewrite runPrepare_reached. unfold bind at 1.
rewrite Hbase. unfold bind. by rewrite applyOverlays_run.
Qed.

(** Detection is logged by [basePlan] alone, and only on its second
  branch. *)
Lemma generateAndWrite_no_detect plan tr :
existsb isDetect (snd (generateAndWrite w absPath plan tr))
= existsb isDetect tr.
Proof.
unfold generateAndWrite, bind, emit, fail, ret. simpl.
destruct (w_MkdirAll w _); simpl.
{ by rewrite existsb_app, orb_false_r. }
destruct (w_GenerateDockerfile w plan) as [dockerfile [err|]]; simpl.
{ by rewrite !existsb_app, !orb_false_r. }
destruct (w_WriteFile w _ dockerfile); simpl;
  by rewrite !existsb_app, !orb_false_r.
Qed.

Lemma runPrepare_detects :
existsb isDetect (traceOf w)
= bool_decide (choosePlanFile w absPath = "").
Proof.
unfold traceOf.
destruct (decide (choosePlanFile w absPath = "")) as [Hnone|Hfile].
- rewrite bool_decide_eq_true_2 by done.
  pose proof (basePlan_detection [] Hnone) as Hbase.
  destruct (detectOutcome w absPath) as [e|base].
  + by rewrite (runPrepare_base_fails _ _ Hbase).
  + rewrite (runPrepare_base_ok _ _ Hbase), generateAndWrite_no_detect.
    reflexivity.
- rewrite bool_decide_eq_false_2 by done.
  pose proof (basePlan_plan_file [] Hfile) as Hbase.
  destruct (loadOutcome w (choosePlanFile w absPath)) as [e|base].
  + by rewrite (runPrepare_base_fails _ _ Hbase).
  + rewrite (runPrepare_base_ok _ _ Hbase), generateAndWrite_no_detect.
    reflexivity.
Qed.

End ControlFlow.

Lemma Join_not_empty dir name : name ≠ "" → Join dir name ≠ "".
Proof.
  intros Hname. unfold Join. case_decide; [done|].
  destruct dir as [|c dir]; [done|].
  by destruct (endsWithSlash _).
Qed.

(** The plan file is the flag when it is given, else coolpack.json in the
    project root when it is found, else none. *)
Lemma choosePlanFile_cases w absPath :
  let defaultPlanFile := Join absPath "coolpack.json" in
  choosePlanFile w absPath
  = if decide (preparePlanFile (w_flags w) ≠ "")
    then preparePlanFile (w_flags w)
    else match w_Stat w defaultPlanFile with
         | StatOk => defaultPlanFile
         | _ => ""
         end.
Proof.
  unfold choosePlanFile. simpl.
  destruct (decide (preparePlanFile (w_flags w) = "")) as [Hnone|Hflag].
  - rewrite decide_False by (by intros []). rewrite Hnone.
    by destruct (w_Stat w _).
  - by rewrite decide_True.
Qed.

Lemma choosePlanFile_none w absPath :
  choosePlanFile w absPath = ""
  ↔ preparePlanFile (w_flags w) = ""
    ∧ w_Stat w (Join absPath "coolpack.json") ≠ StatOk.
Proof.
  rewrite choosePlanFile_cases. simpl.
  pose proof (Join_not_empty absPath "coolpack.json") as Hjoin.
  destruct (decide (preparePlanFile (w_flags w) ≠ "")) as [Hflag|Hflag].
  - split; [done|]. by intros [? _].
  - apply dec_stable in Hflag.
    destruct (w_Stat w (Join absPath "coolpack.json")); split;
      try (intros _; by split).
    + intros Heq. exfalso. by apply Hjoin.
    + by intros [_ ?].
Qed.

Lemma generateAndWrite_extends w absPath plan tr ev :
  In ev tr → In ev (snd (generateAndWrite w absPath plan tr)).
Proof.
  intros Hin.
  unfold generateAndWrite, bind, emit, fail, ret. simpl.
  destruct (w_MkdirAll w _); simpl.
  { apply in_or_app. by left. }
  destruct (w_GenerateDockerfile w plan) as [dockerfile [err|]]; simpl.
  { do 2 (apply in_or_app; left). done. }
  destruct (w_WriteFile w _ dockerfile); simpl;
    repeat (apply in_or_app; left); done.
Qed.

Lemma Detect_no_match registry snapshot :
  (∀ p, In p registry → Matches p snapshot = false) →
  Detect registry snapshot = (None, None).
Proof.
  intros Hnone. unfold Detect.
  induction registry as [|p registry IH]; simpl; [done|].
  rewrite (Hnone p) by (by left).
  apply IH. intros q Hq. apply Hnone. by right.
Qed.

(** The text of a parse failure is the text of no other error. *)
Lemma parse_error_message_distinct e err :
  errorMessage e = errorMessage (ErrLoadPlanFile (ErrParseJSON err)) →
  e = ErrLoadPlanFile (ErrParseJSON err).
Proof.
  destruct e as [x|x|[x|x]|x| |x|x|x]; simpl; intros Heq;
    try discriminate.
  by simplify_eq.
Qed.

(** C5. Whenever a plan file is supplied by --plan, or coolpack.json is
    found in the project root, and its contents fail to parse, the run
    returns the parse error, wrapped as a plan-file load error whose text
    no other error has, right after the load: detection is not attempted,
    no overlay stage runs, the generator is not called and nothing is
    written. *)
Theorem plan_file_parse_failure_aborts :
  ∀ (w : World) (absPath planFile data err : string),
    w_Abs w (targetPath w) = inl absPath →
    w_Stat w absPath ≠ StatNotExist →
    (preparePlanFile (w_flags w) = planFile ∧ planFile ≠ ""
     ∨ preparePlanFile (w_flags w) = ""
       ∧ w_Stat w (Join absPath "coolpack.json") = StatOk
       ∧ planFile = Join absPath "coolpack.json") →
    w_ReadFile w planFile = inl data →
    w_Unmarshal w data = inr err →
    resultOf w = inl (ErrLoadPlanFile (ErrParseJSON err))
    ∧ (∀ e, errorMessage e
            = errorMessage (ErrLoadPlanFile (ErrParseJSON err)) →
            resultOf w = inl e)
    ∧ traceOf w = [EvPrintf (usingPlanFileText planFile);
                   EvLoadPlanFromFile planFile]
    ∧ existsb isDetect (traceOf w) = false
    ∧ abortedEarly (traceOf w).
Proof.
  intros w absPath planFile data err Habs Hstat Hfile Hread Hparse.
  assert (choosePlanFile w absPath = planFile ∧ planFile ≠ "")
    as [Hchoose Hne].
  { rewrite choosePlanFile_cases. simpl.
    destruct Hfile as [[Hflag Hne]|(Hflag & Hfound & ->)].
    - rewrite Hflag. by rewrite decide_True.
    - rewrite Hflag, Hfound. split; [done|].
      by apply Join_not_empty. }
  assert (loadOutcome w planFile = inl (ErrLoadPlanFile (ErrParseJSON err)))
    as Hload.
  { unfold loadOutcome, prepareLoadPlanFromFile.
    by rewrite Hread, Hparse. }
  assert (runPrepare w []
          = (inl (ErrLoadPlanFile (ErrParseJSON err)),
             [EvPrintf (usingPlanFileText planFile);
              EvLoadPlanFromFile planFile])) as Hrun.
  { apply (runPrepare_base_fails w absPath Habs Hstat).
    rewrite (basePlan_plan_file w absPath []) by congruence.
    by rewrite Hchoose, Hload. }
  unfold resultOf, traceOf, abortedEarly. rewrite Hrun. simpl.
  split; [done|]. split; [|done].
  intros e He. by rewrite (parse_error_message_distinct e err He).
Qed.

Lemma plan_file_parse_failure_aborts_witness :
  resultOf worldBrokenPlanFile
  = inl (ErrLoadPlanFile
           (ErrParseJSON
              "invalid character 'o' in literal null (expecting 'u')"))
  ∧ traceOf worldBrokenPlanFile
    = [EvPrintf (usingPlanFileText "/app/coolpack.json");
       EvLoadPlanFromFile "/app/coolpack.json"]
  ∧ existsb isDetect (traceOf worldBrokenPlanFile) = false
  ∧ abortedEarly (traceOf worldBrokenPlanFile).
Proof.
  cut (resultOf worldBrokenPlanFile
       = inl (ErrLoadPlanFile
                (ErrParseJSON
                   "invalid character 'o' in literal null (expecting 'u')"))
       ∧ (∀ e, errorMessage e
               = errorMessage
                   (ErrLoadPlanFile
                      (ErrParseJSON
                         "invalid character 'o' in literal null (expecting 'u')")) →
               resultOf worldBrokenPlanFile = inl e)
       ∧ traceOf worldBrokenPlanFile
         = [EvPrintf (usingPlanFileText "/app/coolpack.json");
            EvLoadPlanFromFile "/app/coolpack.json"]
       ∧ existsb isDetect (traceOf worldBrokenPlanFile) = false
       ∧ abortedEarly (traceOf worldBrokenPlanFile)); [tauto|].
  apply (plan_file_parse_failure_aborts worldBrokenPlanFile
           "/app" "/app/coolpack.json" "nope"
           "invalid character 'o' in literal null (expecting 'u')").
  - reflexivity.
  - vm_compute. discriminate.
  - right. split; [reflexivity|]. split; vm_compute; reflexivity.
  - vm_compute. reflexivity.
  - vm_compute. reflexivity.
Defined.

(** C10. Without --plan, a coolpack.json that [os.Stat] finds in the
    project root is loaded as the base Plan, the overlays are applied to
    it, and detection is not attempted; detection runs exactly when
    --plan is not given and coolpack.json is not found. *)
Theorem default_plan_file_replaces_detection :
  ∀ (w : World) (absPath : string),
    w_Abs w (targetPath w) = inl absPath →
    w_Stat w absPath ≠ StatNotExist →
    let defaultPlanFile := Join absPath "coolpack.json" in
    (preparePlanFile (w_flags w) = "" →
     w_Stat w defaultPlanFile = StatOk →
     basePlan w absPath []
     = (loadOutcome w defaultPlanFile,
        [EvPrintf (usingPlanFileText defaultPlanFile);
         EvLoadPlanFromFile defaultPlanFile])
     ∧ In (EvLoadPlanFromFile defaultPlanFile) (traceOf w)
     ∧ existsb isDetect (traceOf w) = false
     ∧ ∀ plan, prepareLoadPlanFromFile w defaultPlanFile = inr plan →
         w_MkdirAll w (Join absPath ".coolpack") = None →
         In (EvGenerateDockerfile
               (resolvePlan (w_environ w) (w_flags w) plan)) (traceOf w))
    ∧ (existsb isDetect (traceOf w) = true
       ↔ preparePlanFile (w_flags w) = ""
         ∧ w_Stat w defaultPlanFile ≠ StatOk).
Proof.
  intros w absPath Habs Hstat defaultPlanFile. split.
  - intros Hflag Hfound.
    assert (choosePlanFile w absPath = defaultPlanFile) as Hchoose.
    { rewrite choosePlanFile_cases. simpl. fold defaultPlanFile.
      rewrite Hflag, Hfound. done. }
    assert (defaultPlanFile ≠ "") as Hne by (by apply Join_not_empty).
    pose proof (basePlan_plan_file w absPath []) as Hbase.
    rewrite Hchoose in Hbase. specialize (Hbase Hne). simpl in Hbase.
    split; [exact Hbase|].
    assert (existsb isDetect (traceOf w) = false) as Hnodetect.
    { rewrite (runPrepare_detects w absPath Habs Hstat).
      apply bool_decide_eq_false_2. congruence. }
    assert (In (EvLoadPlanFromFile defaultPlanFile) (traceOf w)) as Hload.
    { unfold traceOf.
      destruct (loadOutcome w defaultPlanFile) as [e|base] eqn:Hout.
      - rewrite (runPrepare_base_fails w absPath Habs Hstat _ _ Hbase).
        simpl. tauto.
      - rewrite (runPrepare_base_ok w absPath Habs Hstat _ _ Hbase).
        apply generateAndWrite_extends. apply in_or_app. left.
        simpl. tauto. }
    repeat split; try done.
    intros plan Hplan Hmk. unfold traceOf.
    assert (loadOutcome w defaultPlanFile = inr plan) as Hout
      by (unfold loadOutcome; by rewrite Hplan).
    rewrite Hout in Hbase.
    rewrite (runPrepare_base_ok w absPath Habs Hstat _ _ Hbase).
    by apply generateAndWrite_generates.
  - rewrite (runPrepare_detects w absPath Habs Hstat).
    rewrite bool_decide_eq_true. apply choosePlanFile_none.
Qed.

Lemma default_plan_file_replaces_detection_witness :
  In (EvLoadPlanFromFile "/app/coolpack.json") (traceOf worldEmptyPlanFile)
  ∧ existsb isDetect (traceOf worldEmptyPlanFile) = false.
Proof.
  destruct (default_plan_file_replaces_detection worldEmptyPlanFile "/app")
    as [Hfound _].
  - reflexivity.
  - vm_compute. discriminate.
  - destruct Hfound as (_ & Hload & Hnodetect & _).
    + reflexivity.
    + vm_compute. reflexivity.
    + split; [exact Hload|exact Hnodetect].
Defined.

(** C8. On a directory where no plan file is supplied or found and no
    provider of the registry matches, the run returns the
    no-application-detected error right after detection: no overlay stage
    runs, the generator is not called and nothing is written. *)
Theorem no_provider_matches_no_application :
  ∀ (w : World) (absPath : string) (registry : list Provider)
    (snapshot : gmap string string),
    w_Abs w (targetPath w) = inl absPath →
    w_Stat w absPath ≠ StatNotExist →
    preparePlanFile (w_flags w) = "" →
    w_Stat w (Join absPath "coolpack.json") ≠ StatOk →
    w_Detect w absPath = Detect registry snapshot →
    (∀ p, In p registry → Matches p snapshot = false) →
    resultOf w = inl ErrNoSupportedApplication
    ∧ traceOf w = [EvDetect absPath]
    ∧ abortedEarly (traceOf w).
Proof.
  intros w absPath registry snapshot Habs Hstat Hflag Hfound Hdet Hnone.
  assert (choosePlanFile w absPath = "") as Hchoose
    by (by apply choosePlanFile_none).
  assert (detectOutcome w absPath = inl ErrNoSupportedApplication) as Hout.
  { unfold detectOutcome. by rewrite Hdet, (Detect_no_match _ _ Hnone). }
  assert (runPrepare w [] = (inl ErrNoSupportedApplication, [EvDetect absPath]))
    as Hrun.
  { apply (runPrepare_base_fails w absPath Habs Hstat).
    rewrite (basePlan_detection w absPath [] Hchoose). by rewrite Hout. }
  unfold resultOf, traceOf, abortedEarly. rewrite Hrun. simpl. done.
Qed.

Lemma no_provider_matches_no_application_witness :
  resultOf worldEmptyDir = inl ErrNoSupportedApplication
  ∧ traceOf worldEmptyDir = [EvDetect "/app"]
  ∧ abortedEarly (traceOf worldEmptyDir).
Proof.
  apply (no_provider_matches_no_application worldEmptyDir "/app"
           exampleRegistry ∅).
  - reflexivity.
  - vm_compute. discriminate.
  - reflexivity.
  - vm_compute. discriminate.
  - reflexivity.
  - intros p [<-|[]]. vm_compute. reflexivity.
Defined.

(** ** No validation between the overlays and the generator *)

(** C4, as stated, fails: a plan file holding the empty object gives a
    resolved Plan with no install, build or start command and a language
    other than static; the run does not stop before generation, the
    generator is called on that Plan and the error returned is the
    generator's. *)
Lemma invalid_plan_reaches_generator_counterexample :
  let resolved := resolvePlan ∅ noFlags emptyPlan in
  basePlan worldEmptyPlanFile "/app" []
  = (inr emptyPlan,
     [EvPrintf (usingPlanFileText "/app/coolpack.json");
      EvLoadPlanFromFile "/app/coolpack.json"])
  ∧ planInvalid resolved = true
  ∧ In (EvGenerateDockerfile resolved) (traceOf worldEmptyPlanFile)
  ∧ existsb isGenerate (traceOf worldEmptyPlanFile) = true
  ∧ resultOf worldEmptyPlanFile
    = inl (ErrGenerateDockerfile "no runtime strategy").
Proof.
  intros resolved.
  assert (w_Abs worldEmptyPlanFile (targetPath worldEmptyPlanFile)
          = inl "/app") as Habs by reflexivity.
  assert (w_Stat worldEmptyPlanFile "/app" ≠ StatNotExist) as Hstat
    by (vm_compute; discriminate).
  assert (basePlan worldEmptyPlanFile "/app" []
          = (inr emptyPlan,
             [EvPrintf (usingPlanFileText "/app/coolpack.json");
              EvLoadPlanFromFile "/app/coolpack.json"])) as Hbase
    by (vm_compute; reflexivity).
  pose proof (runPrepare_base_ok worldEmptyPlanFile "/app" Habs Hstat _ _
                Hbase) as Hrun.
  split; [exact Hbase|].
  split; [vm_compute; reflexivity|].
  assert (In (EvGenerateDockerfile resolved) (traceOf worldEmptyPlanFile))
    as Hgen.
  { unfold traceOf. rewrite Hrun.
    by apply generateAndWrite_generates. }
  split; [exact Hgen|].
  split.
  - apply existsb_exists. by exists (EvGenerateDockerfile resolved).
  - unfold resultOf. rewrite Hrun, generateAndWrite_result.
    vm_compute. reflexivity.
Qed.

(** C4, amended. After all override layers are applied the resolved Plan
    is not validated: whenever the base Plan is obtained and the .coolpack
    directory is created, the generator is called on the resolved Plan,
    whatever its commands and language, and the run fails only with the
    generator's error or with the error of writing the Dockerfile. *)
Theorem generator_called_on_every_resolved_plan :
  ∀ (w : World) (absPath : string) (base : Plan),
    w_Abs w (targetPath w) = inl absPath →
    w_Stat w absPath ≠ StatNotExist →
    fst (basePlan w absPath []) = inr base →
    w_MkdirAll w (Join absPath ".coolpack") = None →
    let resolved := resolvePlan (w_environ w) (w_flags w) base in
    In (EvGenerateDockerfile resolved) (traceOf w)
    ∧ resultOf w = generateOutcome w absPath resolved.
Proof.
  intros w absPath base Habs Hstat Hbase Hmk resolved.
  destruct (basePlan w absPath []) as [r tr'] eqn:Hrun. simpl in Hbase.
  subst r.
  pose proof (runPrepare_base_ok w absPath Habs Hstat _ _ Hrun) as Hprep.
  unfold traceOf, resultOf. rewrite Hprep. split.
  - by apply generateAndWrite_generates.
  - by rewrite generateAndWrite_result, Hmk.
Qed.

Lemma generator_called_on_every_resolved_plan_witness :
  In (EvGenerateDockerfile (resolvePlan ∅ noFlags emptyPlan))
     (traceOf worldEmptyPlanFile)
  ∧ resultOf worldEmptyPlanFile
    = generateOutcome worldEmptyPlanFile "/app"
        (resolvePlan ∅ noFlags emptyPlan).
Proof.
  apply (generator_called_on_every_resolved_plan worldEmptyPlanFile "/app"
           emptyPlan).
  - reflexivity.
  - vm_compute. discriminate.
  - vm_compute. reflexivity.
  - reflexivity.
Defined.

(** * Further properties of prepare.go *)

(** ** Build-environment arguments *)

Lemma byte_is_eq n c :
  GoStrings.byte_is n c = true ↔ N_of_ascii c = n.
Proof. unfold GoStrings.byte_is. apply N.eqb_eq. Qed.

Lemma byte_is_char n c :
  (n < 256)%N →
  GoStrings.byte_is n c = true ↔ c = ascii_of_N n.
Proof.
  intros Hn. rewrite byte_is_eq. split.
  - intros <-. by rewrite ascii_N_embedding.
  - intros ->. by apply N_ascii_embedding.
Qed.

Lemma append_nil_l s : String.append "" s = s.
Proof. reflexivity. Qed.

Lemma append_cons c k s :
  String.append (String c k) s = String c (String.append k s).
Proof. reflexivity. Qed.

Lemma cutEquals_None s :
  GoStrings.cutEquals s = None ↔ ¬ hasEquals s.
Proof.
  unfold hasEquals. induction s as [|c s IH]; simpl.
  - split; [tauto|done].
  - destruct (GoStrings.byte_is 61 c) eqn:Hc.
    + apply byte_is_char in Hc; [|done]. subst c.
      split; [done|]. intros Hno. exfalso. apply Hno. by left.
    + destruct (GoStrings.cutEquals s) as [[k v]|].
      * split; [done|]. intros Hno. exfalso.
        assert (Some (k, v) = None) as Habs; [|done].
        apply IH. tauto.
      * split; [|done]. intros _ [Heq|Hin].
        -- assert (GoStrings.byte_is 61 c = true) as Habs; [|congruence].
           apply byte_is_char; [done|]. by subst c.
        -- by apply IH.
Qed.

(** X1. The split of a --build-env argument at its first equals sign:
    [cutEquals] returns key and value exactly when the argument is the
    key, an equals sign and the value, and the key holds no equals sign;
    the value may hold more of them. *)
Theorem cutEquals_round_trip :
  ∀ (s key value : string),
    GoStrings.cutEquals s = Some (key, value)
    ↔ s = String.append key (String "=" value) ∧ ¬ hasEquals key.
Proof.
  intros s. induction s as [|c s IH]; intros key value; simpl.
  - split; [done|]. intros [Heq _]. destruct key; discriminate.
  - destruct (GoStrings.byte_is 61 c) eqn:Hc.
    + apply byte_is_char in Hc; [|done]. subst c. split.
      * intros [= <- <-]. split; [done|]. by intros [].
      * intros [Heq Hno]. destruct key as [|k key].
        -- rewrite append_nil_l in Heq. by injection Heq as ->.
        -- rewrite append_cons in Heq. injection Heq as Hk _.
           exfalso. apply Hno. by left.
    + split.
      * destruct (GoStrings.cutEquals s) as [[k v]|] eqn:Hcut; [|done].
        intros [= <- <-]. destruct (proj1 (IH k v) eq_refl) as [-> Hno].
        split; [done|]. intros [Heq|Hin]; [|done].
        assert (GoStrings.byte_is 61 c = true) as Habs; [|congruence].
        apply byte_is_char; [done|]. by subst c.
      * intros [Heq Hno]. destruct key as [|k key].
        -- rewrite append_nil_l in Heq. injection Heq as -> _.
           by vm_compute in Hc.
        -- rewrite append_cons in Heq. injection Heq as -> ->.
           assert (GoStrings.cutEquals
                     (String.append key (String "=" value))
                   = Some (key, value)) as ->; [|done].
           apply IH. split; [done|]. intros Hin. apply Hno. by right.
Qed.

Lemma argBinding_key environ arg key value :
  argBinding environ arg = Some (key, value) → ¬ hasEquals key.
Proof.
  unfold argBinding.
  destruct (GoStrings.cutEquals arg) as [[k v]|] eqn:Hcut.
  - intros [= <- <-]. by apply cutEquals_round_trip in Hcut as [_ ?].
  - destruct (GoOs.LookupEnv environ arg); [|done].
    intros [= <- <-]. by apply cutEquals_None.
Qed.

Lemma parseEnvVarsStep_binding environ result arg :
  parseEnvVarsStep environ result arg
  = match argBinding environ arg with
    | Some (key, value) => <[key := value]> result
    | None => result
    end.
Proof.
  unfold parseEnvVarsStep, argBinding.
  destruct (GoStrings.cutEquals arg) as [[k v]|]; [done|].
  by destruct (GoOs.LookupEnv environ arg).
Qed.

Lemma prepareParseEnvVars_snoc environ envArgs arg :
  prepareParseEnvVars environ (envArgs ++ [arg])
  = parseEnvVarsStep environ (prepareParseEnvVars environ envArgs) arg.
Proof. unfold prepareParseEnvVars. by rewrite fold_left_app. Qed.

(** X2. In the map built from the --build-env arguments each key holds
    the value of the last argument that binds it, and a key that no
    argument binds is absent. *)
Theorem parseEnvVars_last_binding_wins :
  ∀ (environ : gmap string string) (envArgs : list string) (key : string),
    prepareParseEnvVars environ envArgs !! key
    = last (valuesFor environ key envArgs).
Proof.
  intros environ envArgs key.
  induction envArgs as [|arg envArgs IH] using rev_ind; [done|].
  rewrite prepareParseEnvVars_snoc, parseEnvVarsStep_binding.
  unfold valuesFor in *. rewrite omap_app. simpl.
  destruct (argBinding environ arg) as [[k v]|]; simpl.
  - case_decide as Hk; simpl.
    + subst k. by rewrite lookup_insert_eq, last_snoc.
    + by rewrite lookup_insert_ne, app_nil_r.
  - by rewrite app_nil_r.
Qed.

(** X3. The map built from the --build-env arguments is empty exactly
    when no argument binds anything, that is when every argument is a
    bare name that is not set in the environment; one KEY=value argument,
    even with an empty key or value, makes it non-empty. *)
Theorem parseEnvVars_empty_iff :
  ∀ (environ : gmap string string) (envArgs : list string),
    prepareParseEnvVars environ envArgs = ∅
    ↔ Forall (λ arg, ¬ hasEquals arg ∧ GoOs.LookupEnv environ arg = None)
        envArgs.
Proof.
  intros environ envArgs.
  assert (∀ arg, argBinding environ arg = None
                 ↔ ¬ hasEquals arg ∧ GoOs.LookupEnv environ arg = None)
    as Hbinding.
  { intros arg. unfold argBinding. rewrite <- cutEquals_None.
    destruct (GoStrings.cutEquals arg) as [[k v]|].
    - split; [done|]. by intros [? _].
    - destruct (GoOs.LookupEnv environ arg); simpl; split; try done.
      by intros [_ ?]. }
  induction envArgs as [|arg envArgs IH] using rev_ind.
  - split; [constructor|done].
  - rewrite prepareParseEnvVars_snoc, parseEnvVarsStep_binding.
    rewrite Forall_app, Forall_singleton, <- Hbinding, <- IH.
    destruct (argBinding environ arg) as [[k v]|].
    + split.
      * intros Hempty. exfalso.
        by apply (insert_non_empty (prepareParseEnvVars environ envArgs) k v).
      * by intros [_ ?].
    + tauto.
Qed.

(** X4. No key of the map built from the --build-env arguments holds an
    equals sign. *)
Theorem parseEnvVars_keys_without_equals :
  ∀ (environ : gmap string string) (envArgs : list string)
    (key value : string),
    prepareParseEnvVars environ envArgs !! key = Some value →
    ¬ hasEquals key.
Proof.
  intros environ envArgs.
  induction envArgs as [|arg envArgs IH] using rev_ind; intros key value.
  - unfold prepareParseEnvVars. simpl. by rewrite lookup_empty.
  - rewrite prepareParseEnvVars_snoc, parseEnvVarsStep_binding.
    destruct (argBinding environ arg) as [[k v]|] eqn:Hbind; [|apply IH].
    destruct (decide (k = key)) as [->|Hne].
    + intros _. by apply argBinding_key in Hbind.
    + rewrite lookup_insert_ne by done. apply IH.
Qed.

Lemma parseEnvVars_keys_without_equals_witness :
  ¬ hasEquals "A".
Proof.
  apply (parseEnvVars_keys_without_equals ∅ ["A=b=c"] "A" "b=c").
  vm_compute. reflexivity.
Defined.

(** ** Splitting and trimming COOLPACK_PACKAGES *)

Lemma SplitComma_not_nil s : GoStrings.SplitComma s ≠ [].
Proof.
  destruct s as [|c s]; simpl; [done|].
  destruct (GoStrings.byte_is 44 c); [done|].
  by destruct (GoStrings.SplitComma s).
Qed.

Lemma hasComma_cons c s :
  hasComma (String c s) ↔ GoStrings.byte_is 44 c = true ∨ hasComma s.
Proof.
  unfold hasComma. simpl. rewrite (byte_is_char 44 c) by done.
  split; (intros [H|H]; [left|right]); done.
Qed.

(** X5. [strings.Split] on commas loses nothing: the pieces joined with
    commas give the string back, there is one piece more than there are
    commas, and no piece holds a comma. *)
Theorem SplitComma_round_trip :
  ∀ (s : string),
    String.concat "," (GoStrings.SplitComma s) = s
    ∧ length (GoStrings.SplitComma s) = S (countCommas s)
    ∧ Forall (λ piece, ¬ hasComma piece) (GoStrings.SplitComma s).
Proof.
  induction s as [|c s (IHjoin & IHlen & IHpieces)]; simpl.
  - repeat split. constructor; [|constructor]. by intros [].
  - pose proof (SplitComma_not_nil s) as Hne.
    destruct (GoStrings.byte_is 44 c) eqn:Hc.
    + apply byte_is_char in Hc as ->; [|done].
      destruct (GoStrings.SplitComma s) as [|piece pieces] eqn:Hs; [done|].
      repeat split.
      * simpl in *. by rewrite IHjoin.
      * simpl in *. by rewrite IHlen.
      * constructor; [by intros []|done].
    + destruct (GoStrings.SplitComma s) as [|piece pieces] eqn:Hs; [done|].
      repeat split.
      * destruct pieces; simpl in *; by rewrite <- IHjoin.
      * done.
      * apply Forall_cons in IHpieces as [Hpiece Hrest].
        constructor; [|done]. rewrite hasComma_cons, Hc.
        intros [?|?]; done.
Qed.

Section Trimming.

Variable width : list ascii → nat.
Hypothesis width_nil : width [] = 0.

Lemma trimWhile_fixed fuel bs :
  width bs = 0 → GoStrings.trimWhile width fuel bs = bs.
Proof. intros Hw. destruct fuel; simpl; [done|]. by rewrite Hw. Qed.

Lemma trimWhile_drop fuel : ∀ bs,
  ∃ n, GoStrings.trimWhile width fuel bs = drop n bs.
Proof.
  induction fuel as [|fuel IH]; intros bs; simpl.
  - by exists 0.
  - destruct (width bs) as [|w] eqn:Hw; [by exists 0|].
    destruct (IH (drop (S w) bs)) as [n ->].
    exists (S w + n). by rewrite drop_drop.
Qed.

Lemma trimWhile_done fuel : ∀ bs,
  (length bs ≤ fuel)%nat → width (GoStrings.trimWhile width fuel bs) = 0.
Proof.
  induction fuel as [|fuel IH]; intros bs Hlen; simpl.
  - destruct bs; simpl in Hlen; [done|lia].
  - destruct (width bs) as [|w] eqn:Hw; [done|].
    apply IH. rewrite length_drop.
    destruct bs; simpl in *; [congruence|lia].
Qed.

End Trimming.

Lemma spaceWidth_prefix p r :
  GoStrings.spaceWidth (p ++ r) = 0 → GoStrings.spaceWidth p = 0.
Proof.
  destruct p as [|b1 [|b2 [|b3 p]]]; simpl; try done;
    repeat case_match; try done.
Qed.

Lemma spaceWidthRev_nil : GoStrings.spaceWidthRev [] = 0.
Proof. reflexivity. Qed.

Lemma spaceWidth_nil : GoStrings.spaceWidth [] = 0.
Proof. reflexivity. Qed.

Lemma trimLeft_suffix bs : ∃ n, GoStrings.trimLeft bs = drop n bs.
Proof. apply trimWhile_drop. Qed.

Lemma trimRight_prefix bs : ∃ n, GoStrings.trimRight bs = take n bs.
Proof.
  unfold GoStrings.trimRight.
  destruct (trimWhile_drop GoStrings.spaceWidthRev (length bs) (rev bs))
    as [n ->].
  exists (length bs - n).
  by rewrite List.skipn_rev, rev_involutive.
Qed.

Lemma trimLeft_no_space bs : GoStrings.spaceWidth (GoStrings.trimLeft bs) = 0.
Proof. by apply trimWhile_done. Qed.

Lemma trimRight_no_space bs :
  GoStrings.spaceWidthRev (rev (GoStrings.trimRight bs)) = 0.
Proof.
  unfold GoStrings.trimRight. rewrite rev_involutive.
  apply trimWhile_done; [done|]. by rewrite length_rev.
Qed.

Lemma trimRight_keeps_left bs :
  GoStrings.spaceWidth bs = 0 →
  GoStrings.spaceWidth (GoStrings.trimRight bs) = 0.
Proof.
  intros Hbs. destruct (trimRight_prefix bs) as [n ->].
  apply (spaceWidth_prefix _ (drop n bs)). by rewrite take_drop.
Qed.

Lemma trimLeft_fixed bs :
  GoStrings.spaceWidth bs = 0 → GoStrings.trimLeft bs = bs.
Proof. apply trimWhile_fixed. Qed.

Lemma trimRight_fixed bs :
  GoStrings.spaceWidthRev (rev bs) = 0 → GoStrings.trimRight bs = bs.
Proof.
  intros Hbs. unfold GoStrings.trimRight.
  rewrite trimWhile_fixed by done. apply rev_involutive.
Qed.

Lemma TrimSpace_bytes s :
  list_ascii_of_string (GoStrings.TrimSpace s)
  = GoStrings.trimRight (GoStrings.trimLeft (list_ascii_of_string s)).
Proof. unfold GoStrings.TrimSpace. apply list_ascii_of_string_of_list_ascii. Qed.

(** X6. [strings.TrimSpace] returns a string that neither starts nor ends
    with a white-space rune, and trimming it again changes nothing. *)
Theorem TrimSpace_trimmed_and_idempotent :
  ∀ (s : string),
    ¬ startsWithSpace (GoStrings.TrimSpace s)
    ∧ ¬ endsWithSpace (GoStrings.TrimSpace s)
    ∧ GoStrings.TrimSpace (GoStrings.TrimSpace s) = GoStrings.TrimSpace s.
Proof.
  intros s. unfold startsWithSpace, endsWithSpace.
  rewrite TrimSpace_bytes.
  set (bs := GoStrings.trimLeft (list_ascii_of_string s)).
  assert (GoStrings.spaceWidth (GoStrings.trimRight bs) = 0) as Hleft
    by apply trimRight_keeps_left, trimLeft_no_space.
  pose proof (trimRight_no_space bs) as Hright.
  split; [by intros []|]. split; [by intros []|].
  unfold GoStrings.TrimSpace at 1. rewrite TrimSpace_bytes. fold bs.
  rewrite (trimLeft_fixed _ Hleft), (trimRight_fixed _ Hright).
  reflexivity.
Qed.

Lemma spaceWidth_bound bs : (GoStrings.spaceWidth bs ≤ length bs)%nat.
Proof.
  destruct bs as [|b1 [|b2 [|b3 bs]]]; simpl;
    repeat case_match; simpl; lia.
Qed.

Lemma spaceWidth_take bs :
  GoStrings.spaceWidth (take (GoStrings.spaceWidth bs) bs)
  = GoStrings.spaceWidth bs.
Proof.
  destruct bs as [|b1 [|b2 [|b3 bs]]]; simpl; try done;
    repeat (case_match; simpl; try done); congruence.
Qed.

Lemma spaceWidthRev_bound rs : (GoStrings.spaceWidthRev rs ≤ length rs)%nat.
Proof.
  destruct rs as [|b1 [|b2 [|b3 rs]]]; unfold GoStrings.spaceWidthRev;
    repeat case_match; simpl; lia.
Qed.

Lemma spaceWidthRev_take rs :
  GoStrings.spaceWidth (rev (take (GoStrings.spaceWidthRev rs) rs))
  = GoStrings.spaceWidthRev rs.
Proof.
  destruct rs as [|b1 [|b2 [|b3 rs]]]; unfold GoStrings.spaceWidthRev;
    try done.
  - destruct (GoStrings.asciiSpace b1) eqn:H1; simpl; by rewrite ?H1.
  - destruct (GoStrings.asciiSpace b1) eqn:H1; [simpl; by rewrite H1|].
    destruct (Nat.eqb _ 2) eqn:H2; [|done].
    by apply Nat.eqb_eq in H2.
  - destruct (GoStrings.asciiSpace b1) eqn:H1; [simpl; by rewrite H1|].
    destruct (Nat.eqb _ 2) eqn:H2; [by apply Nat.eqb_eq in H2|].
    destruct (Nat.eqb _ 3) eqn:H3; [|done].
    by apply Nat.eqb_eq in H3.
Qed.

Lemma spaceRunes_snoc l rune :
  spaceRunes l → rune ≠ [] →
  GoStrings.spaceWidth rune = length rune →
  spaceRunes (l ++ rune).
Proof.
  induction 1 as [|r rest Hr Hw Hrest IH]; intros Hne Hrune; simpl.
  - rewrite <- (app_nil_r rune). by constructor; [| |constructor].
  - rewrite <- app_assoc. constructor; [done..|]. by apply IH.
Qed.

(** What [trimWhile] removes from the front is white-space runes. *)
Lemma trimLeft_removes_spaces fuel : ∀ bs,
  ∃ pre, bs = pre ++ GoStrings.trimWhile GoStrings.spaceWidth fuel bs
         ∧ spaceRunes pre.
Proof.
  induction fuel as [|fuel IH]; intros bs; simpl.
  - exists []. split; [done|constructor].
  - destruct (GoStrings.spaceWidth bs) as [|w] eqn:Hw.
    + exists []. split; [done|constructor].
    + destruct (IH (drop (S w) bs)) as (pre & Hpre & Hspaces).
      exists (take (S w) bs ++ pre). split.
      * rewrite <- app_assoc, <- Hpre. by rewrite take_drop.
      * pose proof (spaceWidth_bound bs) as Hbound.
        pose proof (spaceWidth_take bs) as Htake. rewrite Hw in *.
        constructor; [|by rewrite length_take_le|done].
        destruct bs; simpl in *; [lia|done].
Qed.

(** What [trimWhile] removes from the reversed end is, read forwards,
    white-space runes. *)
Lemma trimRight_removes_spaces fuel : ∀ rs,
  ∃ post, rs = post ++ GoStrings.trimWhile GoStrings.spaceWidthRev fuel rs
          ∧ spaceRunes (rev post).
Proof.
  induction fuel as [|fuel IH]; intros rs; simpl.
  - exists []. split; [done|constructor].
  - destruct (GoStrings.spaceWidthRev rs) as [|w] eqn:Hw.
    + exists []. split; [done|constructor].
    + destruct (IH (drop (S w) rs)) as (post & Hpost & Hspaces).
      exists (take (S w) rs ++ post). split.
      * rewrite <- app_assoc, <- Hpost. by rewrite take_drop.
      * pose proof (spaceWidthRev_bound rs) as Hbound.
        pose proof (spaceWidthRev_take rs) as Htake. rewrite Hw in *.
        rewrite rev_app_distr. apply spaceRunes_snoc; [done| |].
        -- destruct rs; simpl in *; [lia|].
           intros Hnil%(f_equal (@length ascii)).
           rewrite length_app in Hnil. simpl in Hnil. lia.
        -- by rewrite Htake, length_rev, length_take_le.
Qed.

(** X7. [strings.TrimSpace] removes white space only: the string is the
    trimmed string between a run of white-space runes in front and a run
    of white-space runes behind. *)
Theorem TrimSpace_removes_only_spaces :
  ∀ (s : string),
    ∃ pre post : list ascii,
      list_ascii_of_string s
      = pre ++ list_ascii_of_string (GoStrings.TrimSpace s) ++ post
      ∧ spaceRunes pre ∧ spaceRunes post.
Proof.
  intros s. rewrite TrimSpace_bytes.
  set (bs := list_ascii_of_string s).
  destruct (trimLeft_removes_spaces (length bs) bs) as (pre & Hpre & Hsp).
  fold (GoStrings.trimLeft bs) in Hpre.
  set (mid := GoStrings.trimLeft bs) in *.
  destruct (trimRight_removes_spaces (length mid) (rev mid))
    as (post & Hpost & Hsq).
  exists pre, (rev post). repeat split; [|done..].
  rewrite Hpre at 1. f_equal.
  unfold GoStrings.trimRight.
  rewrite <- rev_app_distr, <- Hpost. by rewrite rev_involutive.
Qed.

Lemma SplitComma_no_comma s :
  Forall (λ piece, ¬ hasComma piece) (GoStrings.SplitComma s).
Proof.
  induction s as [|c s IH]; simpl.
  - constructor; [by intros []|constructor].
  - destruct (GoStrings.byte_is 44 c) eqn:Hc.
    + constructor; [by intros []|done].
    + destruct (GoStrings.SplitComma s) as [|piece pieces]; simpl.
      * constructor; [|constructor]. rewrite hasComma_cons, Hc.
        by intros [?|[]].
      * apply Forall_cons in IH as [Hpiece Hrest].
        constructor; [|done]. rewrite hasComma_cons, Hc. by intros [?|?].
Qed.

Lemma TrimSpace_bytes_in s c :
  In c (list_ascii_of_string (GoStrings.TrimSpace s)) →
  In c (list_ascii_of_string s).
Proof.
  rewrite TrimSpace_bytes.
  destruct (trimRight_prefix (GoStrings.trimLeft (list_ascii_of_string s)))
    as [n ->].
  destruct (trimLeft_suffix (list_ascii_of_string s)) as [m ->].
  rewrite <- !list_elem_of_In. intros Hin.
  eapply elem_of_sublist; [|apply sublist_drop].
  eapply elem_of_sublist; [exact Hin|apply sublist_take].
Qed.

Lemma TrimSpace_edges s :
  ¬ startsWithSpace (GoStrings.TrimSpace s)
  ∧ ¬ endsWithSpace (GoStrings.TrimSpace s).
Proof.
  unfold startsWithSpace, endsWithSpace. rewrite TrimSpace_bytes.
  rewrite trimRight_keeps_left by apply trimLeft_no_space.
  rewrite trimRight_no_space. split; by intros [].
Qed.

(** X8. Every package taken from COOLPACK_PACKAGES is non-empty, holds no
    comma, and neither starts nor ends with a white-space rune. *)
Theorem environment_packages_clean :
  ∀ (environ : gmap string string),
    Forall (λ pkg, pkg ≠ "" ∧ ¬ hasComma pkg
                   ∧ ¬ startsWithSpace pkg ∧ ¬ endsWithSpace pkg)
      (environmentPackages environ).
Proof.
  intros environ. unfold environmentPackages.
  apply Forall_forall. intros pkg Hin.
  apply list_elem_of_filter in Hin as [Hne Hin].
  apply list_elem_of_fmap in Hin as (piece & -> & Hpiece).
  split; [done|].
  destruct (TrimSpace_edges piece) as [Hstart Hend].
  repeat split; try done.
  intros Hcomma. apply TrimSpace_bytes_in in Hcomma.
  pose proof (SplitComma_no_comma
                (GoOs.Getenv environ "COOLPACK_PACKAGES")) as Hpieces.
  rewrite Forall_forall in Hpieces. by apply (Hpieces piece).
Qed.

(** ** The deduplication loop and the merged package list *)

Lemma keepFirst_sublist l : keepFirst l `sublist_of` l.
Proof.
  induction l as [|x l IH]; simpl; [constructor|].
  apply sublist_skip. etrans; [apply sublist_filter; apply _|exact IH].
Qed.

(** X9. The deduplication loop of [prepareApplyCustomPackages] returns a
    subsequence of its input with the same entries and without
    duplicates, and it returns the input itself exactly when the input has
    no duplicates. *)
Theorem deduplicate_subsequence :
  ∀ (l : list string),
    deduplicate l `sublist_of` l
    ∧ NoDup (deduplicate l)
    ∧ (∀ x, x ∈ deduplicate l ↔ x ∈ l)
    ∧ (deduplicate l = l ↔ NoDup l).
Proof.
  intros l. rewrite deduplicate_keepFirst.
  split; [apply keepFirst_sublist|].
  split; [apply keepFirst_NoDup|].
  split; [apply keepFirst_elem_of|].
  split.
  - intros <-. apply keepFirst_NoDup.
  - apply keepFirst_id.
Qed.

Lemma existingCustomPackages_array_loop elems : ∀ acc,
  fold_left (λ customPackages pkg,
               match pkg with
               | VString s => customPackages ++ [s]
               | _ => customPackages
               end) elems acc
  = acc ++ omap stringElement elems.
Proof.
  induction elems as [|e elems IH]; intros acc; simpl.
  - by rewrite app_nil_r.
  - rewrite IH. destruct e; simpl; try done. by rewrite <- app_assoc.
Qed.

(** X10. The packages of a Plan are read the same from a [[]interface{}],
    as encoding/json decodes them, and from a [[]string], as the helper
    stores them: a decoded array gives its string elements in order,
    skipping every element that is no string, so a stored list that went
    through a plan file reads back unchanged. *)
Theorem existing_packages_of_both_forms :
  ∀ (elems : list Value) (l : list string),
    existingCustomPackages (Some (VArray elems)) = omap stringElement elems
    ∧ existingCustomPackages (Some (VArray (VString <$> l))) = l
    ∧ existingCustomPackages (Some (VStrings l)) = l.
Proof.
  intros elems l.
  assert (∀ es, existingCustomPackages (Some (VArray es))
                = omap stringElement es) as Harray.
  { intros es. unfold existingCustomPackages.
    by rewrite existingCustomPackages_array_loop. }
  split; [apply Harray|]. split; [|done].
  rewrite Harray. induction l as [|x l IH]; [done|].
  rewrite fmap_cons. simpl. by f_equal.
Qed.

Lemma customPackagesOf_resolvePlan environ flags plan :
  customPackagesOf (resolvePlan environ flags plan)
  = keepFirst (customPackagesOf plan ++ preparePackages flags
                 ++ environmentPackages environ).
Proof.
  unfold customPackagesOf at 1.
  rewrite resolvePlan_custom_packages, collectCustomPackages_concat.
  rewrite deduplicate_keepFirst.
  set (l := customPackagesOf plan ++ _).
  case_decide as Hnil; [|done].
  rewrite Hnil. simpl. subst l.
  by apply app_eq_nil in Hnil as [? _].
Qed.

(** X11. The merged package list holds exactly the packages of the three
    sources: an entry is in the resolved list if and only if it was in the
    Plan, was given by --packages (as it was given, untrimmed), or is one
    of the packages of COOLPACK_PACKAGES. *)
Theorem custom_packages_membership :
  ∀ (environ : gmap string string) (flags : Flags) (plan : Plan)
    (pkg : string),
    pkg ∈ customPackagesOf (resolvePlan environ flags plan)
    ↔ pkg ∈ customPackagesOf plan
      ∨ pkg ∈ preparePackages flags
      ∨ pkg ∈ environmentPackages environ.
Proof.
  intros environ flags plan pkg.
  rewrite customPackagesOf_resolvePlan, keepFirst_elem_of.
  by rewrite !elem_of_app.
Qed.

(** X12. The packages a Plan already has keep their place: its list,
    deduplicated, is a prefix of the resolved list, so the packages of the
    command line and of the environment are only ever added behind it. *)
Theorem custom_packages_prior_is_prefix :
  ∀ (environ : gmap string string) (flags : Flags) (plan : Plan),
    keepFirst (customPackagesOf plan)
    `prefix_of` customPackagesOf (resolvePlan environ flags plan).
Proof.
  intros environ flags plan.
  rewrite customPackagesOf_resolvePlan, keepFirst_app.
  by eexists.
Qed.

(** ** How the overlay steps compose *)

Lemma Plan_ext p q :
  sameCommands p q → Metadata q = Metadata p → p = q.
Proof.
  destruct p, q. unfold sameCommands. simpl.
  intros (-> & -> & -> & -> & -> & ->) ->. reflexivity.
Qed.

Lemma Metadata_ext p q :
  is_Some (Metadata p) → is_Some (Metadata q) →
  (∀ k, metadataLookup p k = metadataLookup q k) →
  Metadata q = Metadata p.
Proof.
  unfold metadataLookup, metadataOrEmpty.
  intros [mp Hp] [mq Hq] Hlookup. rewrite Hp, Hq in *.
  f_equal. apply map_eq. intros k. by rewrite Hlookup.
Qed.

Lemma metadataLookup_Metadata p q k :
  Metadata p = Metadata q → metadataLookup p k = metadataLookup q k.
Proof. unfold metadataLookup, metadataOrEmpty. by intros ->. Qed.

Lemma sameCommands_refl p : sameCommands p p.
Proof. by repeat split. Qed.

Lemma sameCommands_sym p q : sameCommands p q → sameCommands q p.
Proof. unfold sameCommands. intuition congruence. Qed.

Lemma metadataStage_commute k1 h1 f1 k2 h2 f2 :
  metadataStage k1 h1 f1 → metadataStage k2 h2 f2 → k1 ≠ k2 →
  ∀ p, f1 (f2 p) = f2 (f1 p).
Proof.
  intros H1 H2 Hne p.
  destruct (H1 p) as (Hc1 & _ & Hl1), (H2 p) as (Hc2 & _ & Hl2).
  destruct (H1 (f2 p)) as (Hc12 & Hs12 & Hl12).
  destruct (H2 (f1 p)) as (Hc21 & Hs21 & Hl21).
  apply Plan_ext.
  - eapply sameCommands_trans; [|exact Hc21].
    eapply sameCommands_trans; [|exact Hc1].
    apply sameCommands_sym.
    eapply sameCommands_trans; [exact Hc2|exact Hc12].
  - apply Metadata_ext; [done..|].
    intros k. rewrite Hl12, Hl21, Hl1, Hl2.
    repeat case_decide; congruence.
Qed.

Lemma fieldStage_metadataStage_commute f k h g :
  fieldStage f → metadataStage k h g →
  ∀ p, f (g p) = g (f p).
Proof.
  intros Hf Hg p.
  destruct (Hg p) as (Hcg & Hsg & Hlg).
  destruct (Hg (f p)) as (Hcgf & Hsgf & Hlgf).
  destruct (Hf p) as (Hmf & Hrf), (Hf (g p)) as (Hmfg & _).
  apply Plan_ext.
  - eapply sameCommands_trans; [|exact Hcgf].
    apply sameCommands_sym. by apply Hrf.
  - apply Metadata_ext; [by rewrite Hmfg|done|].
    intros k'.
    rewrite (metadataLookup_Metadata (f (g p)) (g p)) by done.
    rewrite Hlg, Hlgf.
    by rewrite (metadataLookup_Metadata (f p) p).
Qed.

Section Stages.

Variables (environ : gmap string string) (flags : Flags).

Lemma server_metadataStage :
  metadataStage "static_server"
    (orPriorValue (overrideValue environ (prepareStaticServer flags)
                     "COOLPACK_STATIC_SERVER"))
    (λ p, prepareApplyStaticServerSetting environ p
            (prepareStaticServer flags)).
Proof.
  intros p. split; [apply StaticServer_sameCommands|]. split.
  - unfold prepareApplyStaticServerSetting. by case_match.
  - apply StaticServer_metadataLookup.
Qed.

Lemma outputDir_metadataStage :
  metadataStage "output_dir_override"
    (orPriorValue (overrideValue environ (prepareOutputDir flags)
                     "COOLPACK_SPA_OUTPUT_DIR"))
    (λ p, prepareApplyOutputDirSetting environ p (prepareOutputDir flags)).
Proof.
  intros p. split; [apply OutputDir_sameCommands|]. split.
  - unfold prepareApplyOutputDirSetting. by case_match.
  - apply OutputDir_metadataLookup.
Qed.

Lemma spa_metadataStage :
  metadataStage "is_spa"
    (λ prior,
       if prepareNoSPA flags || envTruthy environ "COOLPACK_NO_SPA"
       then None
       else if prepareSPA flags || envTruthy environ "COOLPACK_SPA"
            then Some (VBool true) else prior)
    (λ p, prepareApplySPASetting environ p (prepareSPA flags)
            (prepareNoSPA flags)).
Proof.
  intros p. split; [apply SPASetting_sameCommands|]. split.
  - unfold prepareApplySPASetting. by repeat case_match.
  - apply SPASetting_metadataLookup.
Qed.

Lemma packages_metadataStage :
  metadataStage "custom_packages"
    (λ prior,
       let collected :=
         existingCustomPackages prior ++ preparePackages flags
           ++ environmentPackages environ in
       if decide (collected = []) then prior
       else Some (VStrings (deduplicate collected)))
    (λ p, prepareApplyCustomPackages environ p (preparePackages flags)).
Proof.
  intros p. split; [apply CustomPackages_sameCommands|]. split.
  - unfold prepareApplyCustomPackages. by case_match.
  - intros k. rewrite CustomPackages_metadataLookup.
    rewrite collectCustomPackages_concat. unfold customPackagesOf.
    case_decide; [|done]. by subst k.
Qed.

Lemma commands_fieldStage :
  fieldStage (λ p, prepareApplyCommandOverrides environ p
                     (prepareInstallCmd flags) (prepareBuildCmd flags)
                     (prepareStartCmd flags)).
Proof.
  intros p. split; [apply CommandOverrides_Metadata|].
  intros q. destruct p, q. unfold sameCommands. simpl.
  intros (-> & -> & -> & -> & -> & ->).
  unfold prepareApplyCommandOverrides.
  by repeat case_match.
Qed.

Lemma buildEnv_fieldStage :
  fieldStage (λ p, applyBuildEnv environ p (prepareBuildEnvs flags)).
Proof.
  intros p. split; [apply applyBuildEnv_Metadata|].
  intros q. destruct p, q. unfold sameCommands. simpl.
  intros (-> & -> & -> & -> & -> & ->).
  unfold applyBuildEnv. by case_match.
Qed.

Lemma commands_buildEnv_commute p :
  prepareApplyCommandOverrides environ
    (applyBuildEnv environ p (prepareBuildEnvs flags))
    (prepareInstallCmd flags) (prepareBuildCmd flags) (prepareStartCmd flags)
  = applyBuildEnv environ
      (prepareApplyCommandOverrides environ p (prepareInstallCmd flags)
         (prepareBuildCmd flags) (prepareStartCmd flags))
      (prepareBuildEnvs flags).
Proof.
  unfold applyBuildEnv, prepareApplyCommandOverrides.
  by repeat case_match.
Qed.

(** Any two of the six steps commute. *)
Lemma overlayStages_commute f g :
  In f (overlayStages environ flags) → In g (overlayStages environ flags) →
  ∀ p, f (g p) = g (f p).
Proof.
  pose proof server_metadataStage as Hserver.
  pose proof outputDir_metadataStage as Hdir.
  pose proof spa_metadataStage as Hspa.
  pose proof packages_metadataStage as Hpkg.
  pose proof commands_fieldStage as Hcmd.
  pose proof buildEnv_fieldStage as Henv.
  pose proof commands_buildEnv_commute as Hce.
  unfold overlayStages. simpl.
  intros [Hf|[Hf|[Hf|[Hf|[Hf|[Hf|[]]]]]]] [Hg|[Hg|[Hg|[Hg|[Hg|[Hg|[]]]]]]] p;
    first
      [ subst f g; reflexivity
      | subst f g; exact (Hce p)
      | subst f g; symmetry; exact (Hce p)
      | eapply (fieldStage_metadataStage_commute f _ _ g);
          [rewrite <- Hf|rewrite <- Hg]; eassumption
      | symmetry; eapply (fieldStage_metadataStage_commute g _ _ f);
          [rewrite <- Hg|rewrite <- Hf]; eassumption
      | eapply (metadataStage_commute _ _ f _ _ g);
          [rewrite <- Hf; eassumption|rewrite <- Hg; eassumption
          |discriminate] ].
Qed.

End Stages.

Lemma applyStages_app l1 l2 p :
  applyStages (l1 ++ l2) p = applyStages l2 (applyStages l1 p).
Proof. unfold applyStages. apply fold_left_app. Qed.

Lemma applyStages_Permutation l l' :
  l ≡ₚ l' →
  (∀ f g, In f l → In g l → ∀ p, f (g p) = g (f p)) →
  ∀ p, applyStages l p = applyStages l' p.
Proof.
  induction 1 as [|f l l' Hperm IH|f g l|l l' l'' H1 IH1 H2 IH2];
    intros Hcomm p.
  - done.
  - simpl. apply IH. intros f' g' Hf Hg. apply Hcomm; by right.
  - simpl. f_equal. apply Hcomm; [right|]; by left.
  - rewrite IH1 by done. apply IH2.
    intros f g Hf Hg. apply Hcomm.
    + rewrite <- list_elem_of_In in *. by rewrite H1.
    + rewrite <- list_elem_of_In in *. by rewrite H1.
Qed.

(** X13. The six overlay steps of [runPrepare] can be applied in any
    order: every permutation of them gives the resolved Plan, because
    each step writes fields or metadata keys that no other step reads or
    writes. *)
Theorem overlay_order_irrelevant :
  ∀ (environ : gmap string string) (flags : Flags)
    (order : list (Plan → Plan)) (plan : Plan),
    order ≡ₚ overlayStages environ flags →
    applyStages order plan = resolvePlan environ flags plan.
Proof.
  intros environ flags order plan Hperm.
  change (resolvePlan environ flags plan)
    with (applyStages (overlayStages environ flags) plan).
  symmetry. apply applyStages_Permutation; [done|].
  apply overlayStages_commute.
Qed.

Lemma overlay_order_irrelevant_witness :
  applyStages (rev (overlayStages environNoSpa flagsSpa)) spaPlan
  = resolvePlan environNoSpa flagsSpa spaPlan.
Proof.
  apply overlay_order_irrelevant.
  apply Permutation_sym, Permutation_rev.
Defined.

Lemma applyStages_twice l :
  (∀ f g, In f l → In g l → ∀ p, f (g p) = g (f p)) →
  (∀ f, In f l → ∀ p, f (f p) = f p) →
  ∀ p, applyStages (l ++ l) p = applyStages l p.
Proof.
  induction l as [|f l IH]; intros Hcomm Hidem p; [done|].
  change (applyStages ((f :: l) ++ f :: l) p)
    with (applyStages (l ++ f :: l) (f p)).
  rewrite (applyStages_Permutation (l ++ f :: l) (f :: l ++ l)).
  - simpl. rewrite Hidem by (by left).
    apply IH.
    + intros f' g' Hf Hg. apply Hcomm; by right.
    + intros f' Hf. apply Hidem. by right.
  - symmetry. apply Permutation_middle.
  - intros f' g' Hf Hg. apply Hcomm.
    + apply in_app_or in Hf as [Hf|Hf]; [by right|done].
    + apply in_app_or in Hg as [Hg|Hg]; [by right|done].
Qed.

Lemma overlayStages_idempotent environ flags f :
  In f (overlayStages environ flags) → ∀ p, f (f p) = f p.
Proof.
  unfold overlayStages. simpl.
  intros [<-|[<-|[<-|[<-|[<-|[<-|[]]]]]]] p.
  - apply CommandOverrides_idempotent.
  - apply StaticServer_idempotent.
  - apply SPASetting_idempotent.
  - apply OutputDir_idempotent.
  - apply CustomPackages_idempotent.
  - apply applyBuildEnv_idempotent.
Qed.

(** X14. The whole overlay of [runPrepare] is idempotent: resolving an
    already resolved Plan with the same flags and environment gives it
    back. *)
Theorem resolvePlan_idempotent :
  ∀ (environ : gmap string string) (flags : Flags) (plan : Plan),
    resolvePlan environ flags (resolvePlan environ flags plan)
    = resolvePlan environ flags plan.
Proof.
  intros environ flags plan.
  change (resolvePlan environ flags (resolvePlan environ flags plan))
    with (applyStages (overlayStages environ flags)
            (applyStages (overlayStages environ flags) plan)).
  rewrite <- applyStages_app.
  change (resolvePlan environ flags plan)
    with (applyStages (overlayStages environ flags) plan).
  apply applyStages_twice.
  - apply overlayStages_commute.
  - apply overlayStages_idempotent.
Qed.

Lemma resolvePlan_Language environ flags plan :
  Language (resolvePlan environ flags plan) = Language plan
  ∧ PackageManager (resolvePlan environ flags plan) = PackageManager plan.
Proof.
  unfold resolvePlan.
  set (p0 := prepareApplyCommandOverrides _ _ _ _ _).
  assert (Language p0 = Language plan
          ∧ PackageManager p0 = PackageManager plan) as [HL HP].
  { subst p0. unfold prepareApplyCommandOverrides.
    by repeat case_match. }
  pose proof (StaticServer_sameCommands environ p0
                (prepareStaticServer flags)) as H1.
  set (p1 := prepareApplyStaticServerSetting _ _ _) in *.
  pose proof (SPASetting_sameCommands environ p1 (prepareSPA flags)
                (prepareNoSPA flags)) as H2.
  set (p2 := prepareApplySPASetting _ _ _ _) in *.
  pose proof (OutputDir_sameCommands environ p2 (prepareOutputDir flags))
    as H3.
  set (p3 := prepareApplyOutputDirSetting _ _ _) in *.
  pose proof (CustomPackages_sameCommands environ p3 (preparePackages flags))
    as H4.
  set (p4 := prepareApplyCustomPackages _ _ _) in *.
  destruct (applyBuildEnv_commands environ p4 (prepareBuildEnvs flags))
    as (H5 & H6 & _).
  unfold sameCommands in *. intuition congruence.
Qed.

(** X15. The overlay writes nothing but the three commands, the build
    environment and four metadata keys: language and package manager of
    the resolved Plan are those of the base Plan, every other metadata
    key keeps its entry, and the metadata map of the resolved Plan is
    never nil. *)
Theorem resolvePlan_frame :
  ∀ (environ : gmap string string) (flags : Flags) (plan : Plan),
    let final := resolvePlan environ flags plan in
    Language final = Language plan
    ∧ PackageManager final = PackageManager plan
    ∧ is_Some (Metadata final)
    ∧ ∀ key, ¬ In key resolvedKeys →
        metadataLookup final key = metadataLookup plan key.
Proof.
  intros environ flags plan final. subst final.
  destruct (resolvePlan_Language environ flags plan) as [HL HP].
  split; [done|]. split; [done|]. split.
  - unfold resolvePlan. rewrite applyBuildEnv_Metadata.
    unfold prepareApplyCustomPackages. by case_match.
  - intros key Hkey. unfold resolvedKeys in Hkey. simpl in Hkey.
    unfold resolvePlan.
    rewrite applyBuildEnv_metadataLookup, CustomPackages_metadataLookup,
      OutputDir_metadataLookup, SPASetting_metadataLookup,
      StaticServer_metadataLookup, CommandOverrides_metadataLookup.
    repeat case_decide; subst; tauto.
Qed.

Lemma resolvePlan_frame_witness :
  metadataLookup
    (resolvePlan environNoSpa flagsSpaNoSpa
       (mkPlan "node" "npm" "" "" "" ∅
          (Some {["node_version" := VString "20"]}))) "node_version"
  = Some (VString "20").
Proof.
  destruct (resolvePlan_frame environNoSpa flagsSpaNoSpa
              (mkPlan "node" "npm" "" "" "" ∅
                 (Some {["node_version" := VString "20"]})))
    as (_ & _ & _ & Hkeep).
  rewrite Hkeep; [reflexivity|].
  simpl. intros [H|[H|[H|[H|[]]]]]; discriminate.
Defined.

(** X16. No override can blank a command: a command of the resolved Plan
    is empty only if it was empty in the base Plan and neither its
    environment variable nor its flag gives a value. *)
Theorem commands_never_blanked :
  ∀ (environ : gmap string string) (flags : Flags) (plan : Plan),
    let final := resolvePlan environ flags plan in
    (InstallCommand final = ""
     ↔ InstallCommand plan = ""
       ∧ GoOs.Getenv environ "COOLPACK_INSTALL_CMD" = ""
       ∧ prepareInstallCmd flags = "")
    ∧ (BuildCommand final = ""
       ↔ BuildCommand plan = ""
         ∧ GoOs.Getenv environ "COOLPACK_BUILD_CMD" = ""
         ∧ prepareBuildCmd flags = "")
    ∧ (StartCommand final = ""
       ↔ StartCommand plan = ""
         ∧ GoOs.Getenv environ "COOLPACK_START_CMD" = ""
         ∧ prepareStartCmd flags = "").
Proof.
  intros environ flags plan final. subst final.
  destruct (resolvePlan_sameCommands environ flags plan) as (Hi & Hb & Hs).
  destruct (CommandOverrides_commands environ plan (prepareInstallCmd flags)
              (prepareBuildCmd flags) (prepareStartCmd flags))
    as (Hi' & Hb' & Hs').
  rewrite Hi, Hb, Hs, Hi', Hb', Hs'.
  unfold orPrior, overrideValue.
  repeat split; repeat case_decide; intuition congruence.
Qed.

(** X17. Of the metadata keys only [is_spa] can be removed: every other
    key that the base Plan has, the resolved Plan has too. *)
Theorem metadata_keys_kept_except_is_spa :
  ∀ (environ : gmap string string) (flags : Flags) (plan : Plan)
    (key : string),
    key ≠ "is_spa" →
    is_Some (metadataLookup plan key) →
    is_Some (metadataLookup (resolvePlan environ flags plan) key).
Proof.
  intros environ flags plan key Hkey Hsome. unfold resolvePlan.
  rewrite applyBuildEnv_metadataLookup, CustomPackages_metadataLookup,
    OutputDir_metadataLookup, SPASetting_metadataLookup,
    StaticServer_metadataLookup, CommandOverrides_metadataLookup.
  unfold orPriorValue.
  repeat case_decide; subst; try done; by repeat case_match.
Qed.

Lemma metadata_keys_kept_except_is_spa_witness :
  is_Some
    (metadataLookup
       (resolvePlan environNoSpa flagsSpaNoSpa
          (mkPlan "" "" "" "" "" ∅ (Some {["static_server" := VString "nginx"]})))
       "static_server").
Proof.
  apply metadata_keys_kept_except_is_spa; [discriminate|].
  vm_compute. eauto.
Defined.

(** ** What the overlay reads of the environment *)

Section ReadSet.

Variables (env1 env2 : gmap string string).

Lemma overrideValue_ext cli name :
  GoOs.Getenv env1 name = GoOs.Getenv env2 name →
  overrideValue env1 cli name = overrideValue env2 cli name.
Proof. unfold overrideValue. by intros ->. Qed.

Lemma envTruthy_ext name :
  GoOs.Getenv env1 name = GoOs.Getenv env2 name →
  envTruthy env1 name = envTruthy env2 name.
Proof. unfold envTruthy. by intros ->. Qed.

Lemma prepareParseEnvVars_ext envArgs :
  (∀ arg, In arg envArgs → ¬ hasEquals arg →
          GoOs.LookupEnv env1 arg = GoOs.LookupEnv env2 arg) →
  prepareParseEnvVars env1 envArgs = prepareParseEnvVars env2 envArgs.
Proof.
  unfold prepareParseEnvVars. generalize (∅ : gmap string string).
  induction envArgs as [|arg envArgs IH]; intros acc Hargs; [done|].
  simpl. rewrite IH by (intros a Ha; apply Hargs; by right). f_equal.
  unfold parseEnvVarsStep.
  destruct (GoStrings.cutEquals arg) as [[k v]|] eqn:Hcut; [done|].
  rewrite (Hargs arg); [done|by left|by apply cutEquals_None].
Qed.

End ReadSet.

(** X18. The overlay reads the environment through eight variables and
    through the bare names given to --build-env, and through nothing else:
    two environments that agree on these give the same resolved Plan. *)
Theorem resolvePlan_reads_only :
  ∀ (env1 env2 : gmap string string) (flags : Flags) (plan : Plan),
    (∀ name, In name readVariables →
             GoOs.Getenv env1 name = GoOs.Getenv env2 name) →
    (∀ arg, In arg (prepareBuildEnvs flags) → ¬ hasEquals arg →
            GoOs.LookupEnv env1 arg = GoOs.LookupEnv env2 arg) →
    resolvePlan env1 flags plan = resolvePlan env2 flags plan.
Proof.
  intros env1 env2 flags plan Hvars Hargs.
  assert (∀ name, In name readVariables →
            ∀ cli, overrideValue env1 cli name = overrideValue env2 cli name)
    as Hover.
  { intros name Hname cli. apply overrideValue_ext. by apply Hvars. }
  assert (∀ name, In name readVariables →
            envTruthy env1 name = envTruthy env2 name) as Htruthy.
  { intros name Hname. apply envTruthy_ext. by apply Hvars. }
  unfold resolvePlan, applyBuildEnv.
  rewrite (prepareParseEnvVars_ext env1 env2) by done.
  unfold prepareApplyCustomPackages, collectCustomPackages.
  rewrite (Hvars "COOLPACK_PACKAGES") by (simpl; tauto).
  unfold prepareApplyOutputDirSetting.
  rewrite (Hover "COOLPACK_SPA_OUTPUT_DIR") by (simpl; tauto).
  unfold prepareApplySPASetting.
  rewrite (Htruthy "COOLPACK_NO_SPA"), (Htruthy "COOLPACK_SPA")
    by (simpl; tauto).
  unfold prepareApplyStaticServerSetting.
  rewrite (Hover "COOLPACK_STATIC_SERVER") by (simpl; tauto).
  unfold prepareApplyCommandOverrides.
  rewrite (Hover "COOLPACK_INSTALL_CMD"), (Hover "COOLPACK_BUILD_CMD"),
    (Hover "COOLPACK_START_CMD") by (simpl; tauto).
  reflexivity.
Qed.

Lemma resolvePlan_reads_only_witness :
  resolvePlan {["COOLPACK_BASE_IMAGE" := "node:20"]} flagsSpa spaPlan
  = resolvePlan ∅ flagsSpa spaPlan.
Proof.
  apply resolvePlan_reads_only.
  - simpl. intros name [<-|[<-|[<-|[<-|[<-|[<-|[<-|[<-|[]]]]]]]]];
      vm_compute; reflexivity.
  - simpl. intros arg [].
Defined.

(** ** The errors of [runPrepare] *)

(** X19. The text of an error tells which failure it was and what the
    wrapped error said: two errors of [runPrepare] with the same message
    are the same error. *)
Theorem errorMessage_injective :
  ∀ (e1 e2 : PrepareError),
    errorMessage e1 = errorMessage e2 → e1 = e2.
Proof.
  intros e1 e2.
  destruct e1 as [x|x|[x|x]|x| |x|x|x], e2 as [y|y|[y|y]|y| |y|y|y];
    simpl; intros Heq; try discriminate; by simplify_eq.
Qed.

Lemma errorMessage_injective_witness :
  ErrLoadPlanFile (ErrReadFile "x") = ErrLoadPlanFile (ErrReadFile "x").
Proof.
  apply errorMessage_injective. reflexivity.
Defined.

(** *** [runPrepare] in closed form *)

Lemma generateAndWrite_run w absPath plan tr :
  let coolpackDir := Join absPath ".coolpack" in
  generateAndWrite w absPath plan tr
  = match w_MkdirAll w coolpackDir with
    | Some err => (inl (ErrCreateDirectory err), tr ++ [EvMkdirAll coolpackDir])
    | None =>
      match w_GenerateDockerfile w plan with
      | (_, Some err) =>
          (inl (ErrGenerateDockerfile err),
           tr ++ [EvMkdirAll coolpackDir; EvGenerateDockerfile plan])
      | (dockerfile, None) =>
        match w_WriteFile w (Join coolpackDir "Dockerfile") dockerfile with
        | Some err =>
            (inl (ErrWriteDockerfile err),
             tr ++ [EvMkdirAll coolpackDir; EvGenerateDockerfile plan;
                    EvWriteFile (Join coolpackDir "Dockerfile") dockerfile])
        | None => (inr tt, tr ++ generateCalls absPath plan dockerfile)
        end
      end
    end.
Proof.
  unfold generateAndWrite, generateCalls, bind, emit, fail, ret. simpl.
  destruct (w_MkdirAll w _); [done|].
  destruct (w_GenerateDockerfile w plan) as [dockerfile [err|]]; simpl.
  { by rewrite <- app_assoc. }
  destruct (w_WriteFile w _ dockerfile); simpl;
    by rewrite <- !app_assoc.
Qed.

Lemma basePlan_run w absPath :
  basePlan w absPath []
  = if decide (choosePlanFile w absPath ≠ "")
    then (loadOutcome w (choosePlanFile w absPath),
          [EvPrintf (usingPlanFileText (choosePlanFile w absPath));
           EvLoadPlanFromFile (choosePlanFile w absPath)])
    else (detectOutcome w absPath, [EvDetect absPath]).
Proof. unfold basePlan. by case_decide. Qed.

Lemma runPrepare_run w :
  runPrepare w []
  = match w_Abs w (targetPath w) with
    | inr err => (inl (ErrResolvePath err), [])
    | inl absPath =>
      match w_Stat w absPath with
      | StatNotExist => (inl (ErrPathDoesNotExist absPath), [])
      | _ =>
        match basePlan w absPath [] with
        | (inl e, tr) => (inl e, tr)
        | (inr base, tr) =>
            generateAndWrite w absPath
              (resolvePlan (w_environ w) (w_flags w) base)
              (tr ++ overlayCalls)
        end
      end
    end.
Proof.
  unfold runPrepare.
  destruct (w_Abs w (targetPath w)) as [absPath|err]; [|done].
  destruct (w_Stat w absPath) eqn:Hstat; try done;
    unfold bind at 1;
    destruct (basePlan w absPath []) as [[e|base] tr]; try done;
    unfold bind; by rewrite applyOverlays_run.
Qed.

Lemma basePlan_errors w absPath e :
  fst (basePlan w absPath []) = inl e →
  (∃ err, e = ErrLoadPlanFile err) ∨ (∃ err, e = ErrDetectionFailed err)
  ∨ e = ErrNoSupportedApplication.
Proof.
  rewrite basePlan_run. case_decide; simpl.
  - unfold loadOutcome. destruct (prepareLoadPlanFromFile w _); [|done].
    intros [= <-]. left. eauto.
  - unfold detectOutcome.
    destruct (w_Detect w absPath) as [[plan|] [err|]]; intros [= <-]; eauto.
Qed.

Lemma generateAndWrite_errors w absPath plan tr e :
  fst (generateAndWrite w absPath plan tr) = inl e →
  (∃ err, e = ErrCreateDirectory err) ∨ (∃ err, e = ErrGenerateDockerfile err)
  ∨ (∃ err, e = ErrWriteDockerfile err).
Proof.
  rewrite generateAndWrite_result. unfold generateOutcome.
  destruct (w_MkdirAll w _); [intros [= <-]; eauto|].
  destruct (w_GenerateDockerfile w plan) as [d [err|]];
    [intros [= <-]; eauto|].
  destruct (w_WriteFile w _ d); [intros [= <-]; eauto|done].
Qed.

Lemma runPrepare_later_errors w absPath e :
  w_Abs w (targetPath w) = inl absPath →
  w_Stat w absPath ≠ StatNotExist →
  resultOf w = inl e →
  (∀ err, e ≠ ErrResolvePath err) ∧ (∀ p, e ≠ ErrPathDoesNotExist p).
Proof.
  intros Habs Hstat. unfold resultOf.
  destruct (basePlan w absPath []) as [[e'|base] tr] eqn:Hbase.
  - rewrite (runPrepare_base_fails w absPath Habs Hstat _ _ Hbase). simpl.
    intros [= <-].
    pose proof (basePlan_errors w absPath e') as Hkinds.
    rewrite Hbase in Hkinds.
    destruct (Hkinds eq_refl) as [[? ->]|[[? ->]| ->]]; by split.
  - rewrite (runPrepare_base_ok w absPath Habs Hstat _ _ Hbase).
    intros He.
    apply generateAndWrite_errors in He as [[? ->]|[[? ->]|[? ->]]];
      by split.
Qed.

(** X20. The path checks come first and are the only source of the two
    path errors: the run returns the resolve error exactly when
    [filepath.Abs] fails and the path-does-not-exist error exactly when
    [os.Stat] reports that the path is missing, and in both cases nothing
    has been loaded, detected or written. *)
Theorem path_errors_come_first :
  ∀ (w : World),
    (∀ err, resultOf w = inl (ErrResolvePath err)
            ↔ w_Abs w (targetPath w) = inr err)
    ∧ (∀ absPath, resultOf w = inl (ErrPathDoesNotExist absPath)
                  ↔ w_Abs w (targetPath w) = inl absPath
                    ∧ w_Stat w absPath = StatNotExist)
    ∧ ((∃ e, resultOf w = inl e
             ∧ ((∃ err, e = ErrResolvePath err)
                ∨ ∃ absPath, e = ErrPathDoesNotExist absPath)) →
       traceOf w = []).
Proof.
  intros w.
  destruct (w_Abs w (targetPath w)) as [absPath|err0] eqn:Habs.
  - assert (w_Stat w absPath = StatNotExist
            ∨ w_Stat w absPath ≠ StatNotExist) as [Hmiss|Hthere]
      by (destruct (w_Stat w absPath); auto).
    + assert (runPrepare w [] = (inl (ErrPathDoesNotExist absPath), []))
        as Hrun by (by rewrite runPrepare_run, Habs, Hmiss).
      unfold resultOf, traceOf. rewrite Hrun. simpl.
      split; [by intros err|]. split; [|done].
      intros p. split.
      * by intros [= <-].
      * by intros [[= <-] _].
    + pose proof (runPrepare_later_errors w absPath) as Hlater.
      split; [|split].
      * intros err. split; [|done].
        intros He. destruct (Hlater _ Habs Hthere He) as [H _].
        by destruct (H err).
      * intros p. split.
        -- intros He. destruct (Hlater _ Habs Hthere He) as [_ H].
           by destruct (H p).
        -- intros [[= <-] ?]. done.
      * intros (e & He & Hkind).
        destruct (Hlater _ Habs Hthere He) as [H1 H2].
        destruct Hkind as [[err ->]|[p ->]];
          [by destruct (H1 err)|by destruct (H2 p)].
  - assert (runPrepare w [] = (inl (ErrResolvePath err0), [])) as Hrun
      by (by rewrite runPrepare_run, Habs).
    unfold resultOf, traceOf. rewrite Hrun. simpl.
    split; [|split; [|done]].
    + intros err. split; by intros [= <-].
    + intros p. split; [done|]. by intros [? _].
Qed.

Lemma runPrepare_reaches_generate w absPath base :
  w_Abs w (targetPath w) = inl absPath →
  w_Stat w absPath ≠ StatNotExist →
  fst (basePlan w absPath []) = inr base →
  runPrepare w []
  = generateAndWrite w absPath
      (resolvePlan (w_environ w) (w_flags w) base)
      (snd (basePlan w absPath []) ++ overlayCalls).
Proof.
  intros Habs Hstat Hbase.
  destruct (basePlan w absPath []) as [r tr] eqn:Hrun. simpl in *. subst r.
  by apply runPrepare_base_ok.
Qed.

(** X21. A run succeeds exactly when every step does: the path resolves
    and is not missing, the base Plan is obtained, the .coolpack directory
    is created, the generator returns a Dockerfile for the resolved Plan
    and the write succeeds; its log is then the calls for the base Plan,
    the six overlay calls, and the directory, the generator, the one write
    and the two prints, in this order. *)
Theorem run_succeeds_iff_every_step_succeeds :
  ∀ (w : World),
    resultOf w = inr tt
    ↔ ∃ (absPath : string) (base : Plan) (dockerfile : string),
        let resolved := resolvePlan (w_environ w) (w_flags w) base in
        w_Abs w (targetPath w) = inl absPath
        ∧ w_Stat w absPath ≠ StatNotExist
        ∧ fst (basePlan w absPath []) = inr base
        ∧ w_MkdirAll w (Join absPath ".coolpack") = None
        ∧ w_GenerateDockerfile w resolved = (dockerfile, None)
        ∧ w_WriteFile w (Join (Join absPath ".coolpack") "Dockerfile")
            dockerfile = None
        ∧ traceOf w
          = snd (basePlan w absPath []) ++ overlayCalls
              ++ generateCalls absPath resolved dockerfile.
Proof.
  intros w. unfold resultOf, traceOf. split.
  - destruct (w_Abs w (targetPath w)) as [absPath|err] eqn:Habs;
      [|by rewrite runPrepare_run, Habs].
    assert (w_Stat w absPath = StatNotExist
            ∨ w_Stat w absPath ≠ StatNotExist) as [Hmiss|Hthere]
      by (destruct (w_Stat w absPath); auto).
    { by rewrite runPrepare_run, Habs, Hmiss. }
    destruct (basePlan w absPath []) as [[e|base] tr] eqn:Hbase.
    { by rewrite (runPrepare_base_fails w absPath Habs Hthere _ _ Hbase). }
    rewrite (runPrepare_base_ok w absPath Habs Hthere _ _ Hbase).
    rewrite generateAndWrite_run. simpl.
    destruct (w_MkdirAll w _) eqn:Hmk; [done|].
    destruct (w_GenerateDockerfile w _) as [dockerfile [err|]] eqn:Hgen;
      [done|].
    destruct (w_WriteFile w _ dockerfile) eqn:Hwr; [done|].
    intros _. exists absPath, base, dockerfile. cbv zeta.
    rewrite Hgen. cbn [fst snd].
    rewrite Hbase. cbn [fst snd].
    repeat split; try done.
    by rewrite <- app_assoc.
  - intros (absPath & base & dockerfile & Habs & Hstat & Hbase & Hmk & Hgen
            & Hwr & _).
    rewrite (runPrepare_reaches_generate w absPath base) by done.
    rewrite generateAndWrite_run. simpl. by rewrite Hmk, Hgen, Hwr.
Qed.

Example node_project_succeeds :
  resultOf worldNodeProject = inr tt
  ∧ existsb isWrite (traceOf worldNodeProject) = true.
Proof. vm_compute. done. Qed.

Lemma basePlan_trace_kinds w absPath ev :
  In ev (snd (basePlan w absPath [])) →
  isWrite ev = false ∧ isGenerate ev = false ∧ isOverlay ev = false
  ∧ isArtifact ev = false.
Proof.
  rewrite basePlan_run. case_decide; simpl.
  - intros [<-|[<-|[]]]; done.
  - intros [<-|[]]; done.
Qed.

(** X22. Whatever the run, a file is written only as its last step
    before the closing prints: if the log holds a write, it is the write
    of the text the generator returned without error for the resolved
    Plan, to Dockerfile in the .coolpack directory of the project, and it
    is the only write. *)
Theorem written_file_is_generated_dockerfile :
  ∀ (w : World) (path data : string),
    In (EvWriteFile path data) (traceOf w) →
    ∃ (absPath : string) (base : Plan),
      w_Abs w (targetPath w) = inl absPath
      ∧ fst (basePlan w absPath []) = inr base
      ∧ path = Join (Join absPath ".coolpack") "Dockerfile"
      ∧ w_GenerateDockerfile w
          (resolvePlan (w_environ w) (w_flags w) base) = (data, None)
      ∧ List.filter isWrite (traceOf w) = [EvWriteFile path data].
Proof.
  intros w path data. unfold traceOf.
  destruct (w_Abs w (targetPath w)) as [absPath|err] eqn:Habs;
    [|by rewrite runPrepare_run, Habs].
  assert (w_Stat w absPath = StatNotExist
          ∨ w_Stat w absPath ≠ StatNotExist) as [Hmiss|Hthere]
    by (destruct (w_Stat w absPath); auto).
  { by rewrite runPrepare_run, Habs, Hmiss. }
  pose proof (basePlan_trace_kinds w absPath) as Hkinds.
  destruct (basePlan w absPath []) as [[e|base] tr] eqn:Hbase;
    simpl in Hkinds.
  { rewrite (runPrepare_base_fails w absPath Habs Hthere _ _ Hbase). simpl.
    intros Hin. by destruct (Hkinds _ Hin) as [? _]. }
  rewrite (runPrepare_base_ok w absPath Habs Hthere _ _ Hbase).
  assert (List.filter isWrite (tr ++ overlayCalls) = []) as Hnone.
  { rewrite List.filter_app. simpl. rewrite app_nil_r.
    clear -Hkinds. induction tr as [|ev tr IH]; simpl; [done|].
    destruct (Hkinds ev) as [-> _]; [by left|].
    apply IH. intros ev' Hin. apply Hkinds. by right. }
  assert (∀ p d, ¬ In (EvWriteFile p d) (tr ++ overlayCalls)) as Hnot.
  { intros p d Hin.
    assert (In (EvWriteFile p d) (List.filter isWrite (tr ++ overlayCalls)))
      as Hf by (by apply List.filter_In).
    by rewrite Hnone in Hf. }
  rewrite generateAndWrite_run. simpl.
  destruct (w_MkdirAll w _) eqn:Hmk; simpl.
  { intros [Hin|[Hin|[]]]%in_app_or; [by apply Hnot in Hin|done]. }
  destruct (w_GenerateDockerfile w _) as [dockerfile [err|]] eqn:Hgen; simpl.
  { intros [Hin|[Hin|[Hin|[]]]]%in_app_or; [by apply Hnot in Hin|done..]. }
  assert (∀ rest,
            In (EvWriteFile path data)
               ((tr ++ overlayCalls)
                ++ EvMkdirAll (Join absPath ".coolpack")
                   :: EvGenerateDockerfile
                        (resolvePlan (w_environ w) (w_flags w) base)
                   :: EvWriteFile
                        (Join (Join absPath ".coolpack") "Dockerfile")
                        dockerfile :: rest) →
            (∀ ev, In ev rest → isWrite ev = false) →
            path = Join (Join absPath ".coolpack") "Dockerfile"
            ∧ data = dockerfile
            ∧ List.filter isWrite
                ((tr ++ overlayCalls)
                 ++ EvMkdirAll (Join absPath ".coolpack")
                    :: EvGenerateDockerfile
                         (resolvePlan (w_environ w) (w_flags w) base)
                    :: EvWriteFile
                         (Join (Join absPath ".coolpack") "Dockerfile")
                         dockerfile :: rest)
              = [EvWriteFile path data]) as Hshape.
  { intros rest Hin Hrest.
    assert (List.filter isWrite rest = []) as Hrest'.
    { clear -Hrest. induction rest as [|ev rest IH]; simpl; [done|].
      rewrite (Hrest ev) by (by left).
      apply IH. intros ev' Hin. apply Hrest. by right. }
    rewrite List.filter_app, Hnone. simpl. rewrite Hrest'.
    apply in_app_or in Hin as [Hin|[Hin|[Hin|[Hin|Hin]]]];
      try discriminate.
    - by apply Hnot in Hin.
    - by injection Hin as -> ->.
    - by pose proof (Hrest _ Hin). }
  destruct (w_WriteFile w _ dockerfile) eqn:Hwr; simpl.
  - intros Hin.
    assert (∀ ev : Event, In ev [] → isWrite ev = false) as Hnil
      by (by intros ev []).
    destruct (Hshape [] Hin Hnil) as (-> & -> & Hfilter).
    exists absPath, base. rewrite Hbase. by repeat split.
  - unfold generateCalls. intros Hin.
    assert (∀ ev : Event,
              In ev [EvPrintf (String.append "Generated files in "
                        (String.append (Join absPath ".coolpack")
                           (String ":" (String "010" ""))));
                     EvPrintf (String.append "  - Dockerfile"
                                 (String "010" ""))] →
              isWrite ev = false) as Hprints
      by (by intros ev [<-|[<-|[]]]).
    destruct (Hshape _ Hin Hprints) as (-> & -> & Hfilter).
    exists absPath, base. rewrite Hbase. by repeat split.
Qed.

Lemma written_file_is_generated_dockerfile_witness :
  ∃ (absPath : string) (base : Plan),
    w_Abs worldNodeProject (targetPath worldNodeProject) = inl absPath
    ∧ fst (basePlan worldNodeProject absPath []) = inr base
    ∧ "/app/.coolpack/Dockerfile"
      = Join (Join absPath ".coolpack") "Dockerfile"
    ∧ w_GenerateDockerfile worldNodeProject
        (resolvePlan (w_environ worldNodeProject)
           (w_flags worldNodeProject) base) = ("FROM scratch", None)
    ∧ List.filter isWrite (traceOf worldNodeProject)
      = [EvWriteFile "/app/.coolpack/Dockerfile" "FROM scratch"].
Proof.
  apply written_file_is_generated_dockerfile.
  vm_compute. tauto.
Defined.

Lemma basePlan_no_write w absPath :
  existsb isWrite (snd (basePlan w absPath []) ++ overlayCalls) = false.
Proof. rewrite basePlan_run. by case_decide. Qed.

(** X23. When the generator fails, no file is written and the run
    returns the generator's error, whatever text came with it; the
    .coolpack directory has been created by then all the same. *)
Theorem generator_failure_writes_nothing :
  ∀ (w : World) (absPath : string) (base : Plan) (text err : string),
    w_Abs w (targetPath w) = inl absPath →
    w_Stat w absPath ≠ StatNotExist →
    fst (basePlan w absPath []) = inr base →
    w_MkdirAll w (Join absPath ".coolpack") = None →
    w_GenerateDockerfile w (resolvePlan (w_environ w) (w_flags w) base)
    = (text, Some err) →
    resultOf w = inl (ErrGenerateDockerfile err)
    ∧ existsb isWrite (traceOf w) = false
    ∧ In (EvMkdirAll (Join absPath ".coolpack")) (traceOf w).
Proof.
  intros w absPath base text err Habs Hstat Hbase Hmk Hgen.
  unfold resultOf, traceOf.
  rewrite (runPrepare_reaches_generate w absPath base) by done.
  rewrite generateAndWrite_run. simpl. rewrite Hmk, Hgen. simpl.
  split; [done|]. split.
  - rewrite existsb_app, basePlan_no_write. reflexivity.
  - apply in_or_app. right. by left.
Qed.

Lemma generator_failure_writes_nothing_witness :
  resultOf worldEmptyPlanFile
  = inl (ErrGenerateDockerfile "no runtime strategy")
  ∧ existsb isWrite (traceOf worldEmptyPlanFile) = false
  ∧ In (EvMkdirAll (Join "/app" ".coolpack")) (traceOf worldEmptyPlanFile).
Proof.
  apply (generator_failure_writes_nothing worldEmptyPlanFile "/app"
           emptyPlan "").
  - reflexivity.
  - vm_compute. discriminate.
  - vm_compute. reflexivity.
  - reflexivity.
  - vm_compute. reflexivity.
Defined.

(** X24. A plan file that cannot be read, whether named by --plan or
    found as coolpack.json, ends the run with the read error wrapped as a
    plan-file load error: there is no fallback to detection, no overlay
    stage runs and nothing is generated or written. *)
Theorem plan_file_read_failure_aborts :
  ∀ (w : World) (absPath planFile err : string),
    w_Abs w (targetPath w) = inl absPath →
    w_Stat w absPath ≠ StatNotExist →
    choosePlanFile w absPath = planFile →
    planFile ≠ "" →
    w_ReadFile w planFile = inr err →
    resultOf w = inl (ErrLoadPlanFile (ErrReadFile err))
    ∧ traceOf w = [EvPrintf (usingPlanFileText planFile);
                   EvLoadPlanFromFile planFile]
    ∧ existsb isDetect (traceOf w) = false
    ∧ abortedEarly (traceOf w).
Proof.
  intros w absPath planFile err Habs Hstat Hchoose Hne Hread.
  assert (runPrepare w []
          = (inl (ErrLoadPlanFile (ErrReadFile err)),
             [EvPrintf (usingPlanFileText planFile);
              EvLoadPlanFromFile planFile])) as Hrun.
  { apply (runPrepare_base_fails w absPath Habs Hstat).
    rewrite basePlan_run, Hchoose, decide_True by done.
    unfold loadOutcome, prepareLoadPlanFromFile. by rewrite Hread. }
  unfold resultOf, traceOf, abortedEarly. by rewrite Hrun.
Qed.

Lemma plan_file_read_failure_aborts_witness :
  resultOf worldMissingPlan
  = inl (ErrLoadPlanFile (ErrReadFile "no such file or directory"))
  ∧ traceOf worldMissingPlan
    = [EvPrintf (usingPlanFileText "/app/custom.json");
       EvLoadPlanFromFile "/app/custom.json"]
  ∧ existsb isDetect (traceOf worldMissingPlan) = false
  ∧ abortedEarly (traceOf worldMissingPlan).
Proof.
  apply (plan_file_read_failure_aborts worldMissingPlan "/app"
           "/app/custom.json" "no such file or directory").
  - reflexivity.
  - vm_compute. discriminate.
  - vm_compute. reflexivity.
  - discriminate.
  - vm_compute. reflexivity.
Defined.

Lemma generateAndWrite_no_load w absPath plan tr path :
  In (EvLoadPlanFromFile path) (snd (generateAndWrite w absPath plan tr)) →
  In (EvLoadPlanFromFile path) tr.
Proof.
  rewrite generateAndWrite_run. simpl.
  destruct (w_MkdirAll w _); simpl.
  { intros [?|[?|[]]]%in_app_or; done. }
  destruct (w_GenerateDockerfile w plan) as [dockerfile [err|]]; simpl.
  { intros [?|[?|[?|[]]]]%in_app_or; done. }
  destruct (w_WriteFile w _ dockerfile); simpl.
  - intros [?|[?|[?|[?|[]]]]]%in_app_or; done.
  - unfold generateCalls.
    intros [?|[?|[?|[?|[?|[?|[]]]]]]]%in_app_or; done.
Qed.

(** X25. With --plan the named file is the only plan file the run
    loads: coolpack.json in the project root is not looked at, whether it
    is there or not, and detection is not attempted. *)
Theorem plan_flag_beats_default_file :
  ∀ (w : World) (absPath : string),
    w_Abs w (targetPath w) = inl absPath →
    w_Stat w absPath ≠ StatNotExist →
    preparePlanFile (w_flags w) ≠ "" →
    (∀ path, In (EvLoadPlanFromFile path) (traceOf w)
             ↔ path = preparePlanFile (w_flags w))
    ∧ existsb isDetect (traceOf w) = false
    ∧ fst (basePlan w absPath [])
      = loadOutcome w (preparePlanFile (w_flags w)).
Proof.
  intros w absPath Habs Hstat Hflag.
  assert (choosePlanFile w absPath = preparePlanFile (w_flags w)) as Hchoose.
  { rewrite choosePlanFile_cases. simpl. by rewrite decide_True. }
  assert (basePlan w absPath []
          = (loadOutcome w (preparePlanFile (w_flags w)),
             [EvPrintf (usingPlanFileText (preparePlanFile (w_flags w)));
              EvLoadPlanFromFile (preparePlanFile (w_flags w))])) as Hbase.
  { by rewrite basePlan_run, Hchoose, decide_True. }
  split; [|split].
  - intros path. unfold traceOf.
    destruct (loadOutcome w (preparePlanFile (w_flags w))) as [e|base].
    + rewrite (runPrepare_base_fails w absPath Habs Hstat _ _ Hbase). simpl.
      split.
      * by intros [?|[[= <-]|[]]].
      * intros ->. tauto.
    + rewrite (runPrepare_base_ok w absPath Habs Hstat _ _ Hbase). split.
      * intros Hin%generateAndWrite_no_load. simpl in Hin.
        destruct Hin as [?|[[= <-]|Hin]]; try done.
        repeat (destruct Hin as [?|Hin]; [done|]). done.
      * intros ->. apply generateAndWrite_extends. simpl. tauto.
  - rewrite (runPrepare_detects w absPath Habs Hstat).
    apply bool_decide_eq_false_2. congruence.
  - by rewrite Hbase.
Qed.

Lemma plan_flag_beats_default_file_witness :
  (∀ path, In (EvLoadPlanFromFile path) (traceOf worldMissingPlan)
           ↔ path = "/app/custom.json")
  ∧ existsb isDetect (traceOf worldMissingPlan) = false
  ∧ fst (basePlan worldMissingPlan "/app" [])
    = loadOutcome worldMissingPlan "/app/custom.json".
Proof.
  apply (plan_flag_beats_default_file worldMissingPlan "/app").
  - reflexivity.
  - vm_compute. discriminate.
  - discriminate.
Defined.

(** X26. When detection returns an error the run ends with it, wrapped
    as a detection failure, even if a Plan came back with the error: the
    Plan is dropped, no overlay stage runs and nothing is generated or
    written. *)
Theorem detection_error_drops_plan :
  ∀ (w : World) (absPath err : string) (plan : option Plan),
    w_Abs w (targetPath w) = inl absPath →
    w_Stat w absPath ≠ StatNotExist →
    preparePlanFile (w_flags w) = "" →
    w_Stat w (Join absPath "coolpack.json") ≠ StatOk →
    w_Detect w absPath = (plan, Some err) →
    resultOf w = inl (ErrDetectionFailed err)
    ∧ traceOf w = [EvDetect absPath]
    ∧ abortedEarly (traceOf w).
Proof.
  intros w absPath err plan Habs Hstat Hflag Hfound Hdet.
  assert (choosePlanFile w absPath = "") as Hchoose
    by (by apply choosePlanFile_none).
  assert (runPrepare w [] = (inl (ErrDetectionFailed err), [EvDetect absPath]))
    as Hrun.
  { apply (runPrepare_base_fails w absPath Habs Hstat).
    rewrite (basePlan_detection w absPath [] Hchoose).
    unfold detectOutcome. rewrite Hdet. by destruct plan. }
  unfold resultOf, traceOf, abortedEarly. by rewrite Hrun.
Qed.

Lemma detection_error_drops_plan_witness :
  resultOf worldDetectError = inl (ErrDetectionFailed "permission denied")
  ∧ traceOf worldDetectError = [EvDetect "/app"]
  ∧ abortedEarly (traceOf worldDetectError).
Proof.
  apply (detection_error_drops_plan worldDetectError "/app"
           "permission denied" (Some emptyPlan)).
  - reflexivity.
  - vm_compute. discriminate.
  - reflexivity.
  - vm_compute. discriminate.
  - reflexivity.
Defined.
